(** * avr_misc_util: timer prescaler, UART divisor and rounding helpers

    A shallow embedding of [avr_misc_util.c] / [avr_misc_util.h].

    Fixed-width C integers are represented by [Z] with every conversion
    written out.  All operands of [/] and [%] in the source are
    non-negative, so C's truncating division coincides with [Z.div] and
    [Z.modulo] on them.  Behaviour that C leaves undefined (division by
    zero, [abs] of the most negative [int], an array index out of range)
    is the result [None]. *)

From Stdlib Require Import ZArith List Bool Lia.
Import ListNotations.
Local Open Scope Z_scope.

(** ** C integer conversions *)

Module CInt.

(** Conversion to an unsigned type of [bits] bits. *)
Definition wrap_unsigned (bits x : Z) : Z := x mod 2 ^ bits.

(** Conversion to a signed type of [bits] bits (two's complement, as gcc
    defines the out-of-range case). *)
Definition wrap_signed (bits x : Z) : Z :=
  (x + 2 ^ (bits - 1)) mod 2 ^ bits - 2 ^ (bits - 1).

Definition u8 : Z -> Z := wrap_unsigned 8.
Definition u16 : Z -> Z := wrap_unsigned 16.
Definition u32 : Z -> Z := wrap_unsigned 32.
Definition s8 : Z -> Z := wrap_signed 8.
Definition s16 : Z -> Z := wrap_signed 16.
Definition s32 : Z -> Z := wrap_signed 32.

(** Unsigned division; a zero divisor is undefined behaviour. *)
Definition udiv (a b : Z) : option Z :=
  if b =? 0 then None else Some (a / b).

(** The width of [int] is the one thing the source leaves to the
    compiler: 16 bits with avr-gcc, the target of this code, 32 bits
    with the hosted compilers the header also mentions. *)
Inductive int_model : Type := Int16 | Int32.

Definition int_bits (m : int_model) : Z :=
  match m with Int16 => 16 | Int32 => 32 end.

(** Value of [+] or [*] with a [uint16_t] operand after the integer
    promotions: [unsigned int] arithmetic (wrapping at 2^16) when [int]
    has 16 bits, [int] arithmetic when it has 32 (exact on the values
    that occur in this program, all below 2^21). *)
Definition promoted (m : int_model) (x : Z) : Z :=
  match m with Int16 => u16 x | Int32 => x end.

(** [abs] from <stdlib.h> takes an [int]: the argument is converted to
    [int] first, and [abs (INT_MIN)] is undefined. *)
Definition c_abs (m : int_model) (x : Z) : option Z :=
  let i := wrap_signed (int_bits m) x in
  if i =? - 2 ^ (int_bits m - 1) then None else Some (Z.abs i).

End CInt.
Import CInt.

(** Sequencing of computations that may be undefined. *)
Notation "x <- c ;; k" :=
  (match c with Some x => k | None => None end)
  (at level 61, c at next level, right associativity).

(** ** Rounding to the nearest multiple *)

Definition UINT8_MAX : Z := 255.

(** [uint8_t round_near_mul_wovf(uint8_t x, uint8_t y)] *)
Definition round_near_mul_wovf (x y : Z) : Z :=
  let temp := u16 x in
  if y =? 0 then 0 else
  let temp := u16 (temp + y / 2) in
  let temp := u16 (temp - temp mod y) in
  let temp :=
    if temp >? UINT8_MAX then
      let temp := u16 (temp / y) in
      u16 (temp * y)
    else temp in
  u8 temp.

(** [uint8_t round_near_mul_wsat(uint8_t x, uint8_t y)] *)
Definition round_near_mul_wsat (x y : Z) : Z :=
  let temp := u16 x in
  if y =? 0 then 0 else
  let temp := u16 (temp + y / 2) in
  let temp := u16 (temp - temp mod y) in
  let temp :=
    if temp >? UINT8_MAX then
      let temp := u16 (x / y) in
      u16 (temp * y)
    else temp in
  u8 temp.

(** The half-up intermediate [t = (x + y/2) - ((x + y/2) mod y)]. *)
Definition half_up_intermediate (x y : Z) : Z :=
  (x + y / 2) - ((x + y / 2) mod y).

(** The half-up rounded multiple in the words of the specification:
    [((x + y/2) / y) * y]. *)
Definition round_half_up_spec (x y : Z) : Z := ((x + y / 2) / y) * y.

(** ** Timer prescaler and UART divisor calculators

    Both read the build-time constant [F_CPU], the CPU clock in Hz, an
    unsigned 32-bit value. *)

(** [enum _AVR_Timers] *)
Definition AVR_TIMER0 : Z := 0.
Definition AVR_TIMER1 : Z := 1.
Definition AVR_TIMER2 : Z := 2.
Definition AVR_TIMER3 : Z := 3.
Definition AVR_TIMER4 : Z := 4.
Definition AVR_TIMER5 : Z := 5.

(** [const uint16_t prescalers[]] *)
Definition prescalers : list Z := [1; 8; 64; 256; 1024; 1; 8; 32; 64; 128; 256; 1024].

(** The initial values of [prescaler_start], [prescaler_end] and
    [timer_max] and the [switch (timer_id)] that adjusts them:
    [Some (prescaler_start, prescaler_end, timer_max)] for a recognized
    timer, [None] for the [default] branch. *)
Definition timer_params (timer_id : Z) : option (Z * Z * Z) :=
  let prescaler_start := 0 in
  let prescaler_end := 5 in
  let timer_max := 255 in
  if timer_id =? AVR_TIMER0
  then Some (prescaler_start, prescaler_end, timer_max)
  else if (timer_id =? AVR_TIMER1) || (timer_id =? AVR_TIMER3)
          || (timer_id =? AVR_TIMER4) || (timer_id =? AVR_TIMER5)
  then Some (prescaler_start, prescaler_end, 65535)
  else if timer_id =? AVR_TIMER2
  then Some (5, 12, timer_max)
  else None.

(** The [do { ... } while (val > timer_max && counter < prescaler_end)]
    loop; returns the final [(val, counter)].  [fuel] bounds the number of
    iterations. *)
Fixpoint presc_loop (fuel : nat) (temp timer_max prescaler_end counter : Z)
  : option (Z * Z) :=
  match fuel with
  | O => None
  | S fuel' =>
      p <- nth_error prescalers (Z.to_nat counter) ;;
      q <- udiv temp p ;;
      let val := u32 (q - 1) in
      let counter := u8 (counter + 1) in
      if (val >? timer_max) && (counter <? prescaler_end)
      then presc_loop fuel' temp timer_max prescaler_end counter
      else Some (val, counter)
  end.

(** [(uint32_t)(UART_MAX_ERR_RATE*10)] with [UART_MAX_ERR_RATE] = 2.5, a
    constant the compiler folds to 25. *)
Definition UART_MAX_ERR_RATE_x10 : Z := 25.

(** [#define UART_ERR_CALC(x)] *)
Definition UART_ERR_CALC (x : Z) : Z :=
  u32 (u32 (x * UART_MAX_ERR_RATE_x10) / 1000).

Section WithClock.

Variable F_CPU : Z.

(** [int8_t calc_presc_CSbits(uint32_t freq, AVR_Timers timer_id,
    uint16_t *timer_ticks)].  [ticks] is the value stored at
    [timer_ticks] when the function is called; the result is the
    returned value with the value stored there when it returns. *)
Definition calc_presc_CSbits (freq timer_id ticks : Z) : option (Z * Z) :=
  if freq =? 0 then Some (-1, ticks) else
  q <- udiv F_CPU freq ;;
  let temp := u32 q in
  match timer_params timer_id with
  | None => Some (-1, ticks)
  | Some (prescaler_start, prescaler_end, timer_max) =>
      let counter := prescaler_start in
      r <- presc_loop (length prescalers) temp timer_max prescaler_end counter ;;
      let (val, counter) := r in
      if val >? timer_max then Some (-1, ticks) else
      let counter := if counter =? 0 then 1 else counter in
      let ticks := u16 val in
      Some (s8 (counter - prescaler_start), ticks)
  end.

(** [F_CPU / (prescaler * (temp + 1))] with [prescaler] a [uint8_t] and
    [temp] a [uint16_t]. *)
Definition baud_of (m : int_model) (prescaler temp : Z) : option Z :=
  q <- udiv F_CPU (promoted m (prescaler * promoted m (temp + 1))) ;;
  Some (u32 q).

(** [abs((int32_t)(check_baudrate - baudrate))] stored in a [uint32_t]. *)
Definition baud_diff (m : int_model) (check_baudrate baudrate : Z) : option Z :=
  d <- c_abs m (s32 (u32 (check_baudrate - baudrate))) ;;
  Some (u32 d).

(** [int16_t calc_uart_UBRRn(uint32_t baudrate, bool is_U2X_set)], with
    [UART_CALC_USE_ERROR_CHECK] defined as in the header. *)
Definition calc_uart_UBRRn (m : int_model) (baudrate : Z) (is_U2X_set : bool)
  : option Z :=
  let prescaler := 16 in
  if baudrate =? 0 then Some (-1) else
  let prescaler := if is_U2X_set then 8 else prescaler in
  q <- udiv F_CPU (u32 (baudrate * prescaler)) ;;
  let temp := u16 (u32 (q - 1)) in
  if temp >? 4095 then Some (-1) else
  check_baudrate <- baud_of m prescaler temp ;;
  if check_baudrate =? baudrate then Some (s16 temp) else
  first_diff <- baud_diff m check_baudrate baudrate ;;
  let first_val := temp in
  let temp :=
    if check_baudrate >? baudrate then u16 (temp + 1) else u16 (temp - 1) in
  check_baudrate <- baud_of m prescaler temp ;;
  second_diff <- baud_diff m check_baudrate baudrate ;;
  let (temp, first_diff) :=
    if first_diff <? second_diff then (first_val, first_diff)
    else (temp, second_diff) in
  if first_diff >? UART_ERR_CALC baudrate then Some (-1) else
  Some (s16 temp).

End WithClock.

(** ** Vocabulary of the properties *)

(** The tick count the loop body computes from the divisor at table index
    [i]: [(temp / prescalers[i]) - 1] in [uint32_t] arithmetic. *)
Definition ticks_at (temp i : Z) : Z :=
  u32 (temp / nth (Z.to_nat i) prescalers 0 - 1).

(** Index [i] is the first one of the subrange [ps .. pe - 1] whose tick
    count does not exceed [tmax]. *)
Definition selects (temp ps pe tmax i : Z) : Prop :=
  ps <= i < pe /\ ticks_at temp i <= tmax /\
  forall j, ps <= j < i -> ticks_at temp j > tmax.

(** The six recognized timer identifiers. *)
Definition recognized_timers : list Z :=
  [AVR_TIMER0; AVR_TIMER1; AVR_TIMER2; AVR_TIMER3; AVR_TIMER4; AVR_TIMER5].

(** Counter maximum: 255 for the 8-bit timers 0 and 2, 65535 for the
    16-bit timers. *)
Definition counter_max (timer_id : Z) : Z :=
  if (timer_id =? AVR_TIMER0) || (timer_id =? AVR_TIMER2) then 255 else 65535.

(** The prescaler subrange of a timer: table indices 5 .. 11 for timer 2,
    0 .. 4 for the others. *)
Definition subrange_start (timer_id : Z) : Z :=
  if timer_id =? AVR_TIMER2 then 5 else 0.

Definition subrange_end (timer_id : Z) : Z :=
  if timer_id =? AVR_TIMER2 then 12 else 5.

(** The reading of the returned value as a zero-based offset: whenever
    the call succeeds and [i] is the table index whose divisor produced
    the stored tick count, the returned value is [i] minus the start of
    the subrange. *)
Definition zero_based_offset (F_CPU freq timer_id : Z) : Prop :=
  forall ticks ret ticks' i,
    calc_presc_CSbits F_CPU freq timer_id ticks = Some (ret, ticks') ->
    0 <= ret ->
    selects (F_CPU / freq) (subrange_start timer_id) (subrange_end timer_id)
      (counter_max timer_id) i ->
    ticks' = ticks_at (F_CPU / freq) i ->
    ret = i - subrange_start timer_id.

(** The tick count of table index [i] as a plain integer,
    [(temp / prescalers[i]) - 1] without the [uint32_t] wrap: -1 when the
    quotient is 0. *)
Definition plain_ticks_at (temp i : Z) : Z :=
  temp / nth (Z.to_nat i) prescalers 0 - 1.

(** Index [i] is the first one of the subrange whose plain tick count
    does not exceed [tmax]. *)
Definition plain_selects (temp ps pe tmax i : Z) : Prop :=
  ps <= i < pe /\ plain_ticks_at temp i <= tmax /\
  forall j, ps <= j < i -> plain_ticks_at temp j > tmax.

(** The first-fit scan read with plain tick counts: the call succeeds
    with the first divisor whose plain tick count does not exceed the
    counter maximum and stores that count, and it returns -1 if no plain
    tick count of the subrange fits. *)
Definition first_fit_plain (F_CPU freq timer_id : Z) : Prop :=
  forall ticks,
    (forall i,
        plain_selects (F_CPU / freq) (subrange_start timer_id)
          (subrange_end timer_id) (counter_max timer_id) i ->
        exists ret,
          calc_presc_CSbits F_CPU freq timer_id ticks
          = Some (ret, plain_ticks_at (F_CPU / freq) i) /\
          0 <= ret) /\
    ((forall i, subrange_start timer_id <= i < subrange_end timer_id ->
                plain_ticks_at (F_CPU / freq) i > counter_max timer_id) ->
     calc_presc_CSbits F_CPU freq timer_id ticks = Some (-1, ticks)).

(** The prescaler factor of the UART: 16, or 8 in double-speed mode. *)
Definition uart_prescaler (is_U2X_set : bool) : Z :=
  if is_U2X_set then 8 else 16.

(** The initial candidate divisor,
    [temp = (F_CPU / (baudrate * prescaler)) - 1] as a [uint16_t]. *)
Definition first_candidate (F_CPU baudrate : Z) (is_U2X_set : bool) : option Z :=
  q <- udiv F_CPU (u32 (baudrate * uart_prescaler is_U2X_set)) ;;
  Some (u16 (u32 (q - 1))).




(** * Properties *)

(** ** Conversions that leave a value unchanged *)

Lemma wrap_unsigned_small bits x :
  0 <= x < 2 ^ bits -> wrap_unsigned bits x = x.
Proof. intros H. unfold wrap_unsigned. now apply Z.mod_small. Qed.

Lemma u8_small x : 0 <= x < 256 -> u8 x = x.
Proof. intros H. apply wrap_unsigned_small. now change (2 ^ 8) with 256. Qed.

Lemma u16_small x : 0 <= x < 65536 -> u16 x = x.
Proof. intros H. apply wrap_unsigned_small. now change (2 ^ 16) with 65536. Qed.

Lemma u32_small x : 0 <= x < 4294967296 -> u32 x = x.
Proof. intros H. apply wrap_unsigned_small. now change (2 ^ 32) with 4294967296. Qed.

Lemma u32_range x : 0 <= u32 x < 4294967296.
Proof. unfold u32, wrap_unsigned. apply Z.mod_pos_bound. reflexivity. Qed.

Lemma wrap_signed_small bits x :
  0 < bits -> - 2 ^ (bits - 1) <= x < 2 ^ (bits - 1) -> wrap_signed bits x = x.
Proof.
  intros Hb H. unfold wrap_signed.
  assert (E : 2 ^ bits = 2 * 2 ^ (bits - 1)).
  { rewrite <- Z.pow_succ_r by lia. f_equal. lia. }
  rewrite Z.mod_small; lia.
Qed.

Lemma s8_small x : -128 <= x < 128 -> s8 x = x.
Proof. intros H. apply wrap_signed_small; [lia|]. now change (2 ^ (8 - 1)) with 128. Qed.

Lemma s16_small x : -32768 <= x < 32768 -> s16 x = x.
Proof. intros H. apply wrap_signed_small; [lia|]. now change (2 ^ (16 - 1)) with 32768. Qed.

Lemma wrap_signed_mod bits x :
  0 < bits -> wrap_signed bits (x mod 2 ^ bits) = wrap_signed bits x.
Proof.
  intros Hb. unfold wrap_signed.
  rewrite Z.add_mod_idemp_l; [reflexivity|].
  apply Z.pow_nonzero; lia.
Qed.

(** ** Rounding to the nearest multiple *)

Section Rounding.

Variables x y : Z.
Hypothesis x_uint8 : 0 <= x < 256.
Hypothesis y_uint8 : 0 < y < 256.

Lemma half_y_bound : 0 <= y / 2 <= 127.
Proof.
  pose proof (Z.div_mod y 2 ltac:(lia)).
  pose proof (Z.mod_pos_bound y 2 ltac:(lia)).
  lia.
Qed.

Lemma half_up_intermediate_bounds :
  0 <= half_up_intermediate x y <= x + y / 2.
Proof.
  unfold half_up_intermediate.
  pose proof half_y_bound.
  pose proof (Z.mod_pos_bound (x + y / 2) y ltac:(lia)).
  pose proof (Z.mod_le (x + y / 2) y ltac:(lia) ltac:(lia)).
  lia.
Qed.

Lemma half_up_intermediate_multiple :
  half_up_intermediate x y = (x + y / 2) / y * y.
Proof.
  unfold half_up_intermediate.
  pose proof (Z.div_mod (x + y / 2) y ltac:(lia)). lia.
Qed.

(** The two functions share everything up to the overflow test. *)
Lemma wovf_unfold :
  round_near_mul_wovf x y =
  let t := half_up_intermediate x y in
  u8 (if t >? UINT8_MAX then u16 (u16 (t / y) * y) else t).
Proof.
  unfold round_near_mul_wovf.
  pose proof half_y_bound. pose proof half_up_intermediate_bounds as Hb.
  destruct (Z.eqb_spec y 0); [lia|].
  rewrite (u16_small x) by lia.
  rewrite (u16_small (x + y / 2)) by lia.
  fold (half_up_intermediate x y).
  rewrite (u16_small (half_up_intermediate x y)) by lia.
  reflexivity.
Qed.

Lemma wsat_unfold :
  round_near_mul_wsat x y =
  let t := half_up_intermediate x y in
  u8 (if t >? UINT8_MAX then u16 (u16 (x / y) * y) else t).
Proof.
  unfold round_near_mul_wsat.
  pose proof half_y_bound. pose proof half_up_intermediate_bounds as Hb.
  destruct (Z.eqb_spec y 0); [lia|].
  rewrite (u16_small x) by lia.
  rewrite (u16_small (x + y / 2)) by lia.
  fold (half_up_intermediate x y).
  rewrite (u16_small (half_up_intermediate x y)) by lia.
  reflexivity.
Qed.

(** On overflow the wrapping variant returns the intermediate reduced
    modulo 256, which is the intermediate minus 256. *)
Lemma wovf_overflow_value :
  half_up_intermediate x y > 255 ->
  round_near_mul_wovf x y = u8 (half_up_intermediate x y / y * y) /\
  round_near_mul_wovf x y = half_up_intermediate x y - 256.
Proof.
  intros Hov. rewrite wovf_unfold. cbv zeta. unfold UINT8_MAX.
  pose proof half_y_bound. pose proof half_up_intermediate_bounds as Hb.
  destruct (Z.gtb_spec (half_up_intermediate x y) 255); [|lia].
  assert (Hq : half_up_intermediate x y / y * y = half_up_intermediate x y).
  { rewrite half_up_intermediate_multiple at 1 2.
    rewrite Z.div_mul by lia. reflexivity. }
  assert (Hd : 0 <= half_up_intermediate x y / y < 65536).
  { split; [apply Z.div_pos; lia|].
    apply Z.div_lt_upper_bound; nia. }
  rewrite (u16_small (_ / y)) by lia.
  rewrite Hq. rewrite u16_small by lia.
  split; [reflexivity|].
  unfold u8, wrap_unsigned. change (2 ^ 8) with 256.
  pose proof (Z.div_mod (half_up_intermediate x y) 256 ltac:(lia)).
  pose proof (Z.mod_pos_bound (half_up_intermediate x y) 256 ltac:(lia)).
  lia.
Qed.

End Rounding.

(** X5: on overflow the wrapped result is a multiple of [y] exactly when
    [y] divides 256. *)
Lemma wovf_overflow_multiple_iff x y :
  0 <= x < 256 -> 0 < y < 256 -> half_up_intermediate x y > 255 ->
  round_near_mul_wovf x y mod y = 0 <-> 256 mod y = 0.
Proof.
  intros Hx Hy Hov.
  destruct (wovf_overflow_value x y Hx Hy Hov) as [_ ->].
  rewrite (half_up_intermediate_multiple x y Hy).
  rewrite !Z.mod_divide by lia.
  assert (Hd : (y | (x + y / 2) / y * y)) by (apply Z.divide_factor_r).
  split; intros H.
  - replace 256 with ((x + y / 2) / y * y - ((x + y / 2) / y * y - 256)) by lia.
    now apply Z.divide_sub_r.
  - now apply Z.divide_sub_r.
Qed.

(** C8: a zero divisor yields 0 in both functions, for every [x]. *)
Theorem round_near_mul_zero_divisor x :
  round_near_mul_wovf x 0 = 0 /\ round_near_mul_wsat x 0 = 0.
Proof. split; reflexivity. Qed.

(** C7: for [y > 0] and [x + y/2 < 256] the two functions agree and both
    return the half-up rounded multiple [((x + y/2) / y) * y], a multiple
    of [y] at distance at most [y/2] from [x], halves going up. *)
Theorem round_near_mul_agree_without_overflow x y :
  0 <= x < 256 -> 0 < y < 256 -> x + y / 2 < 256 ->
  round_near_mul_wovf x y = round_near_mul_wsat x y /\
  round_near_mul_wovf x y = round_half_up_spec x y /\
  round_near_mul_wsat x y = round_half_up_spec x y /\
  round_half_up_spec x y mod y = 0 /\
  2 * (round_half_up_spec x y - x) <= y /\
  2 * (x - round_half_up_spec x y) < y.
Proof.
  intros Hx Hy Hno.
  pose proof (half_up_intermediate_bounds x y Hx Hy) as Hb.
  pose proof (half_up_intermediate_multiple x y Hy) as Hm.
  fold (round_half_up_spec x y) in Hm.
  assert (Hw : round_near_mul_wovf x y = round_half_up_spec x y).
  { rewrite (wovf_unfold x y Hx Hy). cbv zeta. unfold UINT8_MAX.
    destruct (Z.gtb_spec (half_up_intermediate x y) 255); [lia|].
    rewrite u8_small by lia. exact Hm. }
  assert (Hs : round_near_mul_wsat x y = round_half_up_spec x y).
  { rewrite (wsat_unfold x y Hx Hy). cbv zeta. unfold UINT8_MAX.
    destruct (Z.gtb_spec (half_up_intermediate x y) 255); [lia|].
    rewrite u8_small by lia. exact Hm. }
  split; [congruence|]. split; [exact Hw|]. split; [exact Hs|].
  split; [unfold round_half_up_spec; apply Z.mod_mul; lia|].
  rewrite <- Hm. unfold half_up_intermediate.
  pose proof (Z.mod_pos_bound (x + y / 2) y ltac:(lia)).
  pose proof (Z.div_mod y 2 ltac:(lia)).
  pose proof (Z.mod_pos_bound y 2 ltac:(lia)).
  lia.
Qed.

Lemma round_near_mul_agree_without_overflow_witness :
  round_near_mul_wovf 7 4 = 8 /\
  round_near_mul_wovf 7 4 = round_near_mul_wsat 7 4 /\
  round_near_mul_wovf 7 4 = round_half_up_spec 7 4 /\
  round_near_mul_wsat 7 4 = round_half_up_spec 7 4 /\
  round_half_up_spec 7 4 mod 4 = 0 /\
  2 * (round_half_up_spec 7 4 - 7) <= 4 /\
  2 * (7 - round_half_up_spec 7 4) < 4.
Proof.
  split; [reflexivity|].
  apply (round_near_mul_agree_without_overflow 7 4).
  - split; [discriminate | reflexivity].
  - split; reflexivity.
  - reflexivity.
Defined.

(** C5: when the half-up intermediate exceeds 255, the saturating variant
    returns [(x / y) * y], the largest multiple of [y] not exceeding [x];
    in particular [round_near_mul_wsat (255, 10) = 250]. *)
Theorem round_near_mul_wsat_overflow x y :
  0 <= x < 256 -> 0 < y < 256 -> half_up_intermediate x y > 255 ->
  (round_near_mul_wsat x y = x / y * y /\
   (x / y * y) mod y = 0 /\
   x / y * y <= x < x / y * y + y) /\
  round_near_mul_wsat 255 10 = 250.
Proof.
  intros Hx Hy Hov. split; [|reflexivity].
  pose proof (Z.div_mod x y ltac:(lia)) as Hdm.
  pose proof (Z.mod_pos_bound x y ltac:(lia)) as Hmod.
  assert (Hq : 0 <= x / y < 256).
  { split; [apply Z.div_pos; lia|]. apply Z.div_lt_upper_bound; nia. }
  split; [|split; [apply Z.mod_mul; lia|lia]].
  rewrite (wsat_unfold x y Hx Hy). cbv zeta. unfold UINT8_MAX.
  destruct (Z.gtb_spec (half_up_intermediate x y) 255); [|lia].
  rewrite (u16_small (x / y)) by lia.
  rewrite u16_small by lia. rewrite u8_small by lia. reflexivity.
Qed.

Lemma round_near_mul_wsat_overflow_witness :
  half_up_intermediate 255 10 > 255 /\
  (round_near_mul_wsat 255 10 = 255 / 10 * 10 /\
   (255 / 10 * 10) mod 10 = 0 /\
   255 / 10 * 10 <= 255 < 255 / 10 * 10 + 10) /\
  round_near_mul_wsat 255 10 = 250.
Proof.
  split; [reflexivity|].
  apply (round_near_mul_wsat_overflow 255 10).
  - split; [discriminate | reflexivity].
  - split; reflexivity.
  - reflexivity.
Defined.

Example wsat_255_10 : round_near_mul_wsat 255 10 = 250.
Proof. reflexivity. Qed.

(** C2: at [x = 255], [y = 10] the half-up intermediate is 260, above 255,
    and the wrapping variant returns 260 truncated to 8 bits, which is 4:
    neither 0 nor a multiple of [y]. *)
Theorem round_near_mul_wovf_255_10 :
  half_up_intermediate 255 10 = 260 /\
  round_near_mul_wovf 255 10 = u8 (half_up_intermediate 255 10 / 10 * 10) /\
  round_near_mul_wovf 255 10 = 4 /\
  round_near_mul_wovf 255 10 mod 10 <> 0.
Proof. repeat split. vm_compute. discriminate. Qed.

(** ** The prescaler scan *)

Lemma prescalers_positive : Forall (fun p => 0 < p) prescalers.
Proof. unfold prescalers. repeat constructor. Qed.

Lemma prescalers_lookup i :
  0 <= i < 12 ->
  nth_error prescalers (Z.to_nat i) = Some (nth (Z.to_nat i) prescalers 0) /\
  0 < nth (Z.to_nat i) prescalers 0.
Proof.
  intros Hi.
  assert (Hlen : (Z.to_nat i < length prescalers)%nat) by (simpl; lia).
  split.
  - now apply nth_error_nth'.
  - pose proof prescalers_positive as Hp.
    rewrite Forall_forall in Hp. apply Hp. now apply nth_In.
Qed.

Lemma timer_params_cases timer_id ps pe tmax :
  timer_params timer_id = Some (ps, pe, tmax) ->
  (ps = 0 /\ pe = 5 /\ (tmax = 255 \/ tmax = 65535)) \/
  (ps = 5 /\ pe = 12 /\ tmax = 255).
Proof.
  unfold timer_params. cbv zeta.
  repeat match goal with
         | |- context [if ?b then _ else _] => destruct b
         end; intros H; inversion H; subst; lia.
Qed.

Lemma timer_params_recognized timer_id :
  In timer_id recognized_timers ->
  timer_params timer_id =
  Some (subrange_start timer_id, subrange_end timer_id, counter_max timer_id).
Proof.
  unfold recognized_timers. cbn [In].
  intros [<-|[<-|[<-|[<-|[<-|[<-|[]]]]]]]; reflexivity.
Qed.

Lemma timer_params_unrecognized timer_id :
  ~ In timer_id recognized_timers -> timer_params timer_id = None.
Proof.
  unfold recognized_timers, timer_params, AVR_TIMER0, AVR_TIMER1, AVR_TIMER2,
    AVR_TIMER3, AVR_TIMER4, AVR_TIMER5. cbn [In]. intros H.
  repeat match goal with
         | |- context [?a =? ?b] => destruct (Z.eqb_spec a b); [exfalso; lia|]
         end.
  reflexivity.
Qed.

(** One pass of the loop, by induction on the iterations left: it stops
    at the first index whose tick count fits, or at the last index of the
    subrange. *)
Lemma presc_loop_spec fuel : forall temp tmax pe c,
  0 <= c < pe -> pe <= 12 -> pe - c <= Z.of_nat fuel ->
  exists i,
    c <= i < pe /\
    presc_loop fuel temp tmax pe c = Some (ticks_at temp i, i + 1) /\
    (forall j, c <= j < i -> ticks_at temp j > tmax) /\
    (ticks_at temp i <= tmax \/ i + 1 = pe).
Proof.
  induction fuel as [|fuel IH]; intros temp tmax pe c Hc Hpe Hfuel.
  - simpl in Hfuel. lia.
  - cbn [presc_loop].
    destruct (prescalers_lookup c ltac:(lia)) as [-> Hpos].
    unfold udiv. destruct (Z.eqb_spec (nth (Z.to_nat c) prescalers 0) 0); [lia|].
    rewrite (u8_small (c + 1)) by lia.
    fold (ticks_at temp c).
    destruct (Z.gtb_spec (ticks_at temp c) tmax) as [Hgt|Hle];
      [destruct (Z.ltb_spec (c + 1) pe) as [Hlt|Hge]|]; cbn [andb].
    + destruct (IH temp tmax pe (c + 1) ltac:(lia) Hpe ltac:(lia))
        as (i & Hi & Hrun & Hbefore & Hstop).
      exists i. repeat split; try lia; try assumption.
      intros j Hj. destruct (Z.eq_dec j c) as [->|]; [lia|]. apply Hbefore. lia.
    + exists c. repeat split; (reflexivity || lia).
    + exists c. repeat split; (reflexivity || lia).
Qed.

Lemma ticks_at_range temp i : 0 <= ticks_at temp i < 4294967296.
Proof. apply u32_range. Qed.

(** Every path through [calc_presc_CSbits]. *)
Lemma calc_presc_CSbits_cases F_CPU freq timer_id ticks :
  (freq = 0 /\ calc_presc_CSbits F_CPU freq timer_id ticks = Some (-1, ticks)) \/
  (freq <> 0 /\ timer_params timer_id = None /\
   calc_presc_CSbits F_CPU freq timer_id ticks = Some (-1, ticks)) \/
  (freq <> 0 /\
   exists ps pe tmax,
     timer_params timer_id = Some (ps, pe, tmax) /\
     ((exists i,
         selects (u32 (F_CPU / freq)) ps pe tmax i /\
         calc_presc_CSbits F_CPU freq timer_id ticks =
         Some (i - ps + 1, ticks_at (u32 (F_CPU / freq)) i)) \/
      ((forall i, ps <= i < pe -> ticks_at (u32 (F_CPU / freq)) i > tmax) /\
       calc_presc_CSbits F_CPU freq timer_id ticks = Some (-1, ticks)))).
Proof.
  unfold calc_presc_CSbits, udiv.
  destruct (Z.eqb_spec freq 0) as [->|Hfreq]; [left; split; reflexivity|].
  right.
  destruct (timer_params timer_id) as [[[ps pe] tmax]|] eqn:Hparams;
    [right|left; repeat split; assumption].
  split; [assumption|]. exists ps, pe, tmax. split; [reflexivity|].
  set (temp := u32 (F_CPU / freq)).
  assert (Hrange : 0 <= ps < pe /\ pe <= 12 /\ pe - ps <= 7 /\ 0 <= tmax <= 65535)
    by (destruct (timer_params_cases _ _ _ _ Hparams); lia).
  destruct (presc_loop_spec (length prescalers) temp tmax pe ps
              ltac:(lia) ltac:(lia) ltac:(simpl; lia))
    as (i & Hi & -> & Hbefore & Hstop).
  pose proof (ticks_at_range temp i) as Hval.
  destruct (Z.gtb_spec (ticks_at temp i) tmax) as [Hgt|Hle].
  - right. split; [|reflexivity].
    intros j Hj. destruct (Z.eq_dec j i) as [->|]; [lia|]. apply Hbefore. lia.
  - left. exists i. split; [repeat split; (assumption || lia)|].
    destruct (Z.eqb_spec (i + 1) 0); [lia|].
    rewrite u16_small by lia. rewrite s8_small by lia.
    do 2 f_equal. lia.
Qed.

Lemma clock_ratio_u32 F_CPU freq :
  0 <= F_CPU < 2 ^ 32 -> 0 < freq -> u32 (F_CPU / freq) = F_CPU / freq.
Proof.
  change (2 ^ 32) with 4294967296. intros HF Hfreq.
  apply u32_small. split; [apply Z.div_pos; lia|].
  apply Z.div_lt_upper_bound; nia.
Qed.

(** A tick count that fits is the plain quotient minus one: the
    subtraction did not wrap. *)
Lemma ticks_at_fits temp i tmax :
  0 <= temp < 4294967296 -> 0 <= i < 12 -> tmax <= 65535 ->
  ticks_at temp i <= tmax ->
  ticks_at temp i = temp / nth (Z.to_nat i) prescalers 0 - 1 /\
  0 <= temp / nth (Z.to_nat i) prescalers 0 - 1.
Proof.
  intros Ht Hi Hmax Hfit.
  destruct (prescalers_lookup i Hi) as [_ Hpos].
  unfold ticks_at in *. set (p := nth (Z.to_nat i) prescalers 0) in *.
  assert (Hq : 0 <= temp / p < 4294967296).
  { split; [apply Z.div_pos; lia|]. apply Z.div_lt_upper_bound; nia. }
  destruct (Z.eq_dec (temp / p) 0) as [E|E].
  - rewrite E in Hfit. change (u32 (0 - 1)) with 4294967295 in Hfit. lia.
  - rewrite u32_small by lia. lia.
Qed.

(** Runs with a 16 MHz clock. *)

Example calc_presc_CSbits_1kHz_timer0 :
  calc_presc_CSbits 16000000 1000 AVR_TIMER0 77 = Some (3, 249).
Proof. reflexivity. Qed.

Example calc_presc_CSbits_1kHz_timer2 :
  calc_presc_CSbits 16000000 1000 AVR_TIMER2 77 = Some (4, 249).
Proof. reflexivity. Qed.

Example calc_presc_CSbits_1Hz_timer1 :
  calc_presc_CSbits 16000000 1 AVR_TIMER1 77 = Some (4, 62499).
Proof. reflexivity. Qed.

Example calc_presc_CSbits_1Hz_timer0 :
  calc_presc_CSbits 16000000 1 AVR_TIMER0 77 = Some (-1, 77).
Proof. reflexivity. Qed.

Lemma selects_1kHz_timer0 :
  selects (16000000 / 1000) (subrange_start AVR_TIMER0)
    (subrange_end AVR_TIMER0) (counter_max AVR_TIMER0) 2.
Proof.
  unfold selects.
  change (subrange_start AVR_TIMER0) with 0.
  change (subrange_end AVR_TIMER0) with 5.
  change (counter_max AVR_TIMER0) with 255.
  change (16000000 / 1000) with 16000.
  split; [lia|]. split; [change (ticks_at 16000 2) with 249; lia|].
  intros j Hj. assert (E : j = 0 \/ j = 1) by lia.
  destruct E as [->| ->].
  - change (ticks_at 16000 0) with 15999. lia.
  - change (ticks_at 16000 1) with 1999. lia.
Qed.

(** C1, counterexample: with a 16 MHz clock, 1 kHz on timer 0 selects
    table index 2 (divisor 64, 249 ticks) and returns 3, not 2 - 0. *)
Lemma zero_based_offset_fails : ~ zero_based_offset 16000000 1000 AVR_TIMER0.
Proof.
  intros H.
  specialize (H 77 3 249 2 eq_refl ltac:(lia) selects_1kHz_timer0 eq_refl).
  discriminate H.
Qed.

(** C1 (as amended): for a nonzero [freq] and a recognized [timer_id] on
    which [calc_presc_CSbits] succeeds, the returned value is the ONE-based
    position of the selected prescaler in the timer's subrange, the
    selected index minus the start of the subrange plus one (the CS-bits
    value), where the selected index is the one whose divisor produced the
    stored tick count. *)
Theorem calc_presc_CSbits_one_based_offset F_CPU freq timer_id ticks ret ticks' :
  0 <= F_CPU < 2 ^ 32 -> 0 < freq -> In timer_id recognized_timers ->
  calc_presc_CSbits F_CPU freq timer_id ticks = Some (ret, ticks') ->
  0 <= ret ->
  exists i,
    selects (F_CPU / freq) (subrange_start timer_id) (subrange_end timer_id)
      (counter_max timer_id) i /\
    ticks' = ticks_at (F_CPU / freq) i /\
    ret = i - subrange_start timer_id + 1.
Proof.
  intros HF Hfreq Hid Hcall Hret.
  destruct (calc_presc_CSbits_cases F_CPU freq timer_id ticks)
    as [[E _]|[(_ & Hnone & _)|(_ & ps & pe & tmax & Hparams & Hrun)]].
  - lia.
  - rewrite (timer_params_recognized _ Hid) in Hnone. discriminate.
  - rewrite (timer_params_recognized _ Hid) in Hparams.
    injection Hparams as <- <- <-.
    rewrite (clock_ratio_u32 _ _ HF Hfreq) in Hrun.
    destruct Hrun as [(i & Hsel & Hres)|[_ Hres]];
      rewrite Hres in Hcall; injection Hcall as <- <-.
    + exists i. repeat split; (apply Hsel || reflexivity).
    + lia.
Qed.

Lemma calc_presc_CSbits_one_based_offset_witness :
  calc_presc_CSbits 16000000 1000 AVR_TIMER0 77 = Some (3, 249) /\
  exists i,
    selects (16000000 / 1000) (subrange_start AVR_TIMER0)
      (subrange_end AVR_TIMER0) (counter_max AVR_TIMER0) i /\
    249 = ticks_at (16000000 / 1000) i /\
    3 = i - subrange_start AVR_TIMER0 + 1.
Proof.
  split; [reflexivity|].
  apply (calc_presc_CSbits_one_based_offset 16000000 1000 AVR_TIMER0 77 3 249).
  - split; [discriminate | reflexivity].
  - reflexivity.
  - left; reflexivity.
  - reflexivity.
  - discriminate.
Defined.

(** C6, counterexample: with a 16 MHz clock and a target of 16000001 Hz
    on timer 0 the clock ratio is 0, so the plain tick count of the first
    divisor is -1, which does not exceed 255; the call nevertheless
    returns -1 and stores nothing, because the [uint32_t] subtraction
    wraps to 2^32 - 1. *)
Lemma first_fit_plain_fails : ~ first_fit_plain 16000000 16000001 AVR_TIMER0.
Proof.
  intros H. destruct (H 77) as [Hfirst _].
  destruct (Hfirst 0) as (ret & E & Hret).
  - unfold plain_selects.
    change (subrange_start AVR_TIMER0) with 0.
    change (subrange_end AVR_TIMER0) with 5.
    change (counter_max AVR_TIMER0) with 255.
    change (plain_ticks_at (16000000 / 16000001) 0) with (-1).
    split; [lia|]. split; [lia|]. intros j Hj. lia.
  - vm_compute in E. discriminate E.
Qed.

(** C6 (as amended): for a nonzero [freq] and a recognized [timer_id] the
    function scans the subrange in table order and selects the first
    divisor [p] whose tick count [(F_CPU / freq) / p - 1], computed in
    [uint32_t] arithmetic (a zero quotient wraps to 2^32 - 1 and never
    qualifies), does not exceed the counter maximum; it then stores
    exactly that value, which equals the plain [(F_CPU / freq) / p - 1]
    and is at most the counter maximum, and returns a non-negative value.
    If no divisor of the subrange qualifies it returns -1 (and stores
    nothing). *)
Theorem calc_presc_CSbits_first_fit F_CPU freq timer_id ticks :
  0 <= F_CPU < 2 ^ 32 -> 0 < freq -> In timer_id recognized_timers ->
  (exists i p ret,
      selects (F_CPU / freq) (subrange_start timer_id) (subrange_end timer_id)
        (counter_max timer_id) i /\
      nth_error prescalers (Z.to_nat i) = Some p /\
      calc_presc_CSbits F_CPU freq timer_id ticks
      = Some (ret, (F_CPU / freq) / p - 1) /\
      0 <= (F_CPU / freq) / p - 1 <= counter_max timer_id /\
      0 <= ret) \/
  ((forall i, subrange_start timer_id <= i < subrange_end timer_id ->
              ticks_at (F_CPU / freq) i > counter_max timer_id) /\
   calc_presc_CSbits F_CPU freq timer_id ticks = Some (-1, ticks)).
Proof.
  intros HF Hfreq Hid.
  destruct (calc_presc_CSbits_cases F_CPU freq timer_id ticks)
    as [[E _]|[(_ & Hnone & _)|(_ & ps & pe & tmax & Hparams & Hrun)]].
  - lia.
  - rewrite (timer_params_recognized _ Hid) in Hnone. discriminate.
  - pose proof (timer_params_cases _ _ _ _ Hparams) as Hshape.
    rewrite (timer_params_recognized _ Hid) in Hparams.
    injection Hparams as <- <- <-.
    pose proof (clock_ratio_u32 _ _ HF Hfreq) as Hratio.
    rewrite Hratio in Hrun.
    destruct Hrun as [(i & Hsel & Hres)|[Hall Hres]]; [left|right; now split].
    pose proof Hsel as (Hi & Hfit & _).
    assert (Hi12 : 0 <= i < 12) by lia.
    destruct (prescalers_lookup i Hi12) as [Hnth _].
    destruct (ticks_at_fits (F_CPU / freq) i (counter_max timer_id)
                ltac:(rewrite <- Hratio; apply u32_range) Hi12 ltac:(lia) Hfit)
      as [Hval Hpos].
    exists i, (nth (Z.to_nat i) prescalers 0), (i - subrange_start timer_id + 1).
    rewrite <- Hval.
    split; [exact Hsel|]. split; [exact Hnth|]. split; [exact Hres|].
    rewrite Hval in *. lia.
Qed.

Lemma calc_presc_CSbits_first_fit_witness :
  (exists i p ret,
      selects (16000000 / 1000) (subrange_start AVR_TIMER2)
        (subrange_end AVR_TIMER2) (counter_max AVR_TIMER2) i /\
      nth_error prescalers (Z.to_nat i) = Some p /\
      calc_presc_CSbits 16000000 1000 AVR_TIMER2 77
      = Some (ret, (16000000 / 1000) / p - 1) /\
      0 <= (16000000 / 1000) / p - 1 <= counter_max AVR_TIMER2 /\
      0 <= ret) \/
  ((forall i, subrange_start AVR_TIMER2 <= i < subrange_end AVR_TIMER2 ->
              ticks_at (16000000 / 1000) i > counter_max AVR_TIMER2) /\
   calc_presc_CSbits 16000000 1000 AVR_TIMER2 77 = Some (-1, 77)).
Proof.
  apply (calc_presc_CSbits_first_fit 16000000 1000 AVR_TIMER2 77).
  - split; [discriminate | reflexivity].
  - reflexivity.
  - right; right; left; reflexivity.
Defined.

(** C10: whenever [calc_presc_CSbits] returns -1 the value behind
    [timer_ticks] is the one it had before the call. *)
Theorem calc_presc_CSbits_error_keeps_ticks
  F_CPU freq timer_id ticks ret ticks' :
  calc_presc_CSbits F_CPU freq timer_id ticks = Some (ret, ticks') ->
  ret = -1 -> ticks' = ticks.
Proof.
  intros Hcall Hret.
  destruct (calc_presc_CSbits_cases F_CPU freq timer_id ticks)
    as [[_ E]|[(_ & _ & E)|(_ & ps & pe & tmax & Hparams & Hrun)]].
  - rewrite E in Hcall. now injection Hcall.
  - rewrite E in Hcall. now injection Hcall.
  - destruct Hrun as [(i & Hsel & E)|[_ E]]; rewrite E in Hcall.
    + injection Hcall as <- _. destruct Hsel as (Hi & _). lia.
    + now injection Hcall.
Qed.

Lemma calc_presc_CSbits_error_keeps_ticks_witness :
  calc_presc_CSbits 16000000 1 AVR_TIMER0 77 = Some (-1, 77) /\ 77 = 77.
Proof.
  split; [reflexivity|].
  apply (calc_presc_CSbits_error_keeps_ticks 16000000 1 AVR_TIMER0 77 (-1) 77);
    reflexivity.
Defined.

(** ** The UART divisor *)

Example calc_uart_UBRRn_9600 m :
  calc_uart_UBRRn 16000000 m 9600 false = Some 103.
Proof. destruct m; reflexivity. Qed.

(** With a 14.7456 MHz crystal and 225 baud the initial candidate is 4095;
    [16 * (4095 + 1)] wraps to 0 in a 16-bit [unsigned int] and the
    division is undefined, while a 32-bit [int] finds an exact match. *)
Example calc_uart_UBRRn_225 :
  calc_uart_UBRRn 14745600 Int16 225 false = None /\
  calc_uart_UBRRn 14745600 Int32 225 false = Some 4095.
Proof. split; reflexivity. Qed.

(** [baudrate * prescaler] wraps to 0 at 2^28 baud: division by zero. *)
Example calc_uart_UBRRn_2pow28 m :
  calc_uart_UBRRn 16000000 m 268435456 false = None.
Proof. destruct m; reflexivity. Qed.





(** What every run of [calc_uart_UBRRn] that returns does return: -1, or
    a divisor between 0 and 4096 whose baud rate is the target or deviates
    from it, as [baud_diff] measures it, by at most the margin
    [UART_ERR_CALC]. *)
Lemma calc_uart_UBRRn_result F_CPU m baudrate is_U2X_set d :
  calc_uart_UBRRn F_CPU m baudrate is_U2X_set = Some d ->
  d = -1 \/
  (0 <= d <= 4096 /\
   exists check,
     baud_of F_CPU m (uart_prescaler is_U2X_set) d = Some check /\
     (check = baudrate \/
      exists diff,
        baud_diff m check baudrate = Some diff /\
        diff <= UART_ERR_CALC baudrate)).
Proof.
  unfold calc_uart_UBRRn. fold (uart_prescaler is_U2X_set).
  destruct (Z.eqb_spec baudrate 0); [intros [= <-]; now left|].
  destruct (udiv F_CPU (u32 (baudrate * uart_prescaler is_U2X_set)))
    as [q|]; [|discriminate].
  set (temp := u16 (u32 (q - 1))).
  assert (Ht : 0 <= temp < 65536)
    by (apply (Z.mod_pos_bound _ (2 ^ 16)); reflexivity).
  destruct (Z.gtb_spec temp 4095); [intros [= <-]; now left|].
  destruct (baud_of F_CPU m (uart_prescaler is_U2X_set) temp)
    as [check0|] eqn:Hc0; [|discriminate].
  destruct (Z.eqb_spec check0 baudrate) as [Heq|Hne].
  { intros [= <-]. right. rewrite s16_small by lia.
    split; [lia|]. exists check0. split; [exact Hc0|now left]. }
  destruct (baud_diff m check0 baudrate) as [diff0|] eqn:Hd0; [|discriminate].
  set (temp1 := if check0 >? baudrate then u16 (temp + 1) else u16 (temp - 1)).
  destruct (baud_of F_CPU m (uart_prescaler is_U2X_set) temp1)
    as [check1|] eqn:Hc1; [|discriminate].
  destruct (baud_diff m check1 baudrate) as [diff1|] eqn:Hd1; [|discriminate].
  destruct (diff0 <? diff1).
  - destruct (Z.gtb_spec diff0 (UART_ERR_CALC baudrate));
      intros [= <-]; [now left|right].
    rewrite s16_small by lia. split; [lia|].
    exists check0. split; [exact Hc0|]. right. exists diff0. now split.
  - destruct (Z.gtb_spec diff1 (UART_ERR_CALC baudrate));
      intros [= <-]; [now left|].
    assert (Hadj : temp1 = 65535 \/ 0 <= temp1 <= 4096).
    { subst temp1. destruct (check0 >? baudrate).
      - right. rewrite u16_small by lia. lia.
      - destruct (Z.eq_dec temp 0) as [->|].
        + now left.
        + right. rewrite u16_small by lia. lia. }
    destruct Hadj as [->|Hadj]; [now left|right].
    rewrite s16_small by lia. split; [lia|].
    exists check1. split; [exact Hc1|]. right. exists diff1. now split.
Qed.

(** With a 32-bit [int] the deviation is the true absolute difference, as
    long as it is below 2^31. *)
Lemma baud_diff_hosted check_baudrate baudrate :
  - 2 ^ 31 < check_baudrate - baudrate < 2 ^ 31 ->
  baud_diff Int32 check_baudrate baudrate
  = Some (Z.abs (check_baudrate - baudrate)).
Proof.
  change (2 ^ 31) with 2147483648. intros H.
  unfold baud_diff, c_abs, s32, u32, wrap_unsigned. cbn [int_bits].
  rewrite wrap_signed_mod by lia.
  assert (E : wrap_signed 32 (check_baudrate - baudrate)
              = check_baudrate - baudrate).
  { apply wrap_signed_small; [lia|].
    change (2 ^ (32 - 1)) with 2147483648. lia. }
  rewrite !E. change (2 ^ (32 - 1)) with 2147483648.
  match goal with
  | |- context [?a =? ?b] => destruct (Z.eqb_spec a b); [lia|]
  end.
  rewrite Z.mod_small; [reflexivity|].
  change (2 ^ 32) with 4294967296. lia.
Qed.

Lemma baud_of_hosted F_CPU prescaler temp :
  0 <= F_CPU < 2 ^ 32 -> 0 < prescaler -> 0 <= temp ->
  baud_of F_CPU Int32 prescaler temp = Some (F_CPU / (prescaler * (temp + 1))).
Proof.
  change (2 ^ 32) with 4294967296. intros HF Hp Ht.
  unfold baud_of, promoted, udiv.
  destruct (Z.eqb_spec (prescaler * (temp + 1)) 0); [nia|].
  rewrite u32_small; [reflexivity|].
  split; [apply Z.div_pos; nia|].
  apply Z.div_lt_upper_bound; nia.
Qed.

Lemma UART_ERR_CALC_le baudrate :
  0 <= baudrate -> UART_ERR_CALC baudrate <= baudrate * 25 / 1000.
Proof.
  intros Hb. unfold UART_ERR_CALC, UART_MAX_ERR_RATE_x10, u32, wrap_unsigned.
  assert (H1 : 0 <= (baudrate * 25) mod 2 ^ 32 <= baudrate * 25).
  { split; [apply Z.mod_pos_bound; reflexivity|].
    apply Z.mod_le; [lia|reflexivity]. }
  assert (H2 : 0 <= (baudrate * 25) mod 2 ^ 32 / 1000).
  { apply Z.div_pos; lia. }
  etransitivity; [apply Z.mod_le; [exact H2|reflexivity]|].
  apply Z.div_le_mono; lia.
Qed.

(** X12: with a 32-bit [int] and a target below 2^31, a returned divisor
    is at most 4096 and its baud rate is within 2.5% of the target. *)
Lemma calc_uart_UBRRn_hosted_margin F_CPU baudrate is_U2X_set d :
  0 <= F_CPU < 2 ^ 32 -> 0 < baudrate < 2 ^ 31 ->
  calc_uart_UBRRn F_CPU Int32 baudrate is_U2X_set = Some d ->
  d <> -1 ->
  0 <= d <= 4096 /\
  Z.abs (F_CPU / (uart_prescaler is_U2X_set * (d + 1)) - baudrate)
  <= baudrate * 25 / 1000.
Proof.
  intros HF Hb Hcall Hd.
  destruct (calc_uart_UBRRn_result _ _ _ _ _ Hcall)
    as [E|(Hrange & check & Hcheck & Hdev)]; [contradiction|].
  split; [exact Hrange|].
  assert (Hp : 8 <= uart_prescaler is_U2X_set <= 16)
    by (destruct is_U2X_set; cbn; lia).
  rewrite (baud_of_hosted _ _ _ HF) in Hcheck by lia.
  injection Hcheck as Hcheck. rewrite Hcheck.
  assert (Hc : 0 <= check < 2 ^ 29).
  { subst check. change (2 ^ 32) with 4294967296 in HF.
    change (2 ^ 29) with 536870912.
    split; [apply Z.div_pos; nia|]. apply Z.div_lt_upper_bound; nia. }
  change (2 ^ 29) with 536870912 in Hc. change (2 ^ 31) with 2147483648 in Hb.
  destruct Hdev as [->|(diff & Hdiff & Hle)].
  - rewrite Z.sub_diag. cbn [Z.abs]. apply Z.div_pos; lia.
  - rewrite baud_diff_hosted in Hdiff
      by (change (2 ^ 31) with 2147483648; lia).
    injection Hdiff as <-.
    pose proof (UART_ERR_CALC_le baudrate ltac:(lia)). lia.
Qed.

(** C4: two runs that leave the documented result range.  With
    [F_CPU = 268468224], 8192 baud in double-speed mode, the initial
    candidate 4095 passes the 12-bit test, the adjacent candidate 4096 ties
    with it and is returned, for either width of [int].  With a 16 MHz
    clock and 16-bit [int], 700000 baud returns divisor 1, whose baud rate
    500000 is 200000 away from the target while the margin is 17500: [abs]
    received the deviation cut to 16 bits. *)
Theorem calc_uart_UBRRn_outside_documented_range :
  first_candidate 268468224 8192 true = Some 4095 /\
  (forall m, calc_uart_UBRRn 268468224 m 8192 true = Some 4096) /\
  (calc_uart_UBRRn 16000000 Int16 700000 false = Some 1 /\
   baud_of 16000000 Int16 (uart_prescaler false) 1 = Some 500000 /\
   UART_ERR_CALC 700000 = 17500 /\
   700000 - 500000 > 700000 * 25 / 1000).
Proof.
  split; [reflexivity|].
  split; [intros m; destruct m; reflexivity|].
  repeat split.
Qed.

(** ** Invalid arguments *)

(** C9: invalid arguments are signalled by -1: a zero [freq], a
    [timer_id] that is none of AVR_TIMER0 .. AVR_TIMER5, and a zero
    [baudrate]. *)
Theorem invalid_arguments_return_minus_one
  F_CPU freq timer_id ticks m is_U2X_set :
  calc_presc_CSbits F_CPU 0 timer_id ticks = Some (-1, ticks) /\
  (~ In timer_id recognized_timers ->
   calc_presc_CSbits F_CPU freq timer_id ticks = Some (-1, ticks)) /\
  calc_uart_UBRRn F_CPU m 0 is_U2X_set = Some (-1).
Proof.
  split; [reflexivity|]. split; [|reflexivity].
  intros Hid.
  destruct (calc_presc_CSbits_cases F_CPU freq timer_id ticks)
    as [[_ E]|[(_ & _ & E)|(_ & ps & pe & tmax & Hparams & _)]];
    try exact E.
  rewrite (timer_params_unrecognized _ Hid) in Hparams. discriminate.
Qed.

Lemma invalid_arguments_return_minus_one_witness :
  ~ In 6 recognized_timers /\
  calc_presc_CSbits 16000000 1000 6 77 = Some (-1, 77).
Proof.
  assert (H : ~ In 6 recognized_timers).
  { cbn. intros [H|[H|[H|[H|[H|[H|[]]]]]]]; discriminate H. }
  split; [exact H|].
  apply (invalid_arguments_return_minus_one 16000000 1000 6 77 Int16 false).
  exact H.
Defined.

(** * Further properties of the four functions *)

(** ** Rounding *)

(** A multiple of [y] is its own half-up intermediate. *)
Lemma half_up_intermediate_of_multiple x y :
  0 <= x -> 0 < y -> x mod y = 0 -> half_up_intermediate x y = x.
Proof.
  intros Hx Hy Hm. unfold half_up_intermediate.
  assert (Hh : 0 <= y / 2 < y).
  { pose proof (Z.div_mod y 2 ltac:(lia)).
    pose proof (Z.mod_pos_bound y 2 ltac:(lia)). lia. }
  rewrite Z.add_mod by lia. rewrite Hm, Z.add_0_l.
  rewrite Z.mod_mod by lia. rewrite Z.mod_small by lia. lia.
Qed.

(** Both functions return the intermediate itself when it fits 8 bits. *)
Lemma round_near_mul_fits x y :
  0 <= x < 256 -> 0 < y < 256 -> half_up_intermediate x y <= 255 ->
  round_near_mul_wovf x y = half_up_intermediate x y /\
  round_near_mul_wsat x y = half_up_intermediate x y.
Proof.
  intros Hx Hy Hfit.
  pose proof (half_up_intermediate_bounds x y Hx Hy) as Hb.
  rewrite (wovf_unfold x y Hx Hy), (wsat_unfold x y Hx Hy).
  cbv zeta. unfold UINT8_MAX.
  destruct (Z.gtb_spec (half_up_intermediate x y) 255); [lia|].
  rewrite u8_small by lia. now split.
Qed.

(** The saturating variant on overflow. *)
Lemma wsat_overflow_value x y :
  0 <= x < 256 -> 0 < y < 256 -> half_up_intermediate x y > 255 ->
  round_near_mul_wsat x y = x / y * y.
Proof.
  intros Hx Hy Hov.
  pose proof (Z.div_mod x y ltac:(lia)) as Hdm.
  pose proof (Z.mod_pos_bound x y ltac:(lia)) as Hmod.
  assert (Hq : 0 <= x / y < 256).
  { split; [apply Z.div_pos; lia|]. apply Z.div_lt_upper_bound; nia. }
  rewrite (wsat_unfold x y Hx Hy). cbv zeta. unfold UINT8_MAX.
  destruct (Z.gtb_spec (half_up_intermediate x y) 255); [|lia].
  rewrite (u16_small (x / y)) by lia.
  rewrite u16_small by lia. rewrite u8_small by lia. reflexivity.
Qed.

(** X1: every multiple of [y] below 256 is a fixed point of both
    functions, whether or not [x + y/2] passes 255. *)
Theorem round_near_mul_multiple_fixed x y :
  0 <= x < 256 -> 0 < y < 256 -> x mod y = 0 ->
  round_near_mul_wovf x y = x /\ round_near_mul_wsat x y = x.
Proof.
  intros Hx Hy Hm.
  pose proof (half_up_intermediate_of_multiple x y ltac:(lia) ltac:(lia) Hm) as E.
  destruct (round_near_mul_fits x y Hx Hy ltac:(lia)) as [Hw Hs].
  rewrite Hw, Hs, E. now split.
Qed.

Lemma round_near_mul_multiple_fixed_witness :
  250 mod 10 = 0 /\
  round_near_mul_wovf 250 10 = 250 /\ round_near_mul_wsat 250 10 = 250.
Proof.
  split; [reflexivity|].
  apply (round_near_mul_multiple_fixed 250 10).
  - split; [discriminate | reflexivity].
  - split; reflexivity.
  - reflexivity.
Defined.

(** X2: for every [x] and every [y > 0] the saturating variant returns a
    multiple of [y] in 0 .. 255 that lies less than [y] below [x] and at
    most [y/2] above it, and rounding its result again changes nothing. *)
Theorem round_near_mul_wsat_multiple_idempotent x y :
  0 <= x < 256 -> 0 < y < 256 ->
  round_near_mul_wsat x y mod y = 0 /\
  0 <= round_near_mul_wsat x y <= 255 /\
  x - y < round_near_mul_wsat x y /\
  2 * (round_near_mul_wsat x y - x) <= y /\
  round_near_mul_wsat (round_near_mul_wsat x y) y = round_near_mul_wsat x y.
Proof.
  intros Hx Hy.
  pose proof (half_up_intermediate_bounds x y Hx Hy) as Hb.
  pose proof (half_up_intermediate_multiple x y Hy) as Hmul.
  assert (Hshape : round_near_mul_wsat x y mod y = 0 /\
                   0 <= round_near_mul_wsat x y <= 255 /\
                   x - y < round_near_mul_wsat x y /\
                   2 * (round_near_mul_wsat x y - x) <= y).
  { destruct (Z_le_gt_dec (half_up_intermediate x y) 255) as [Hfit|Hov].
    - destruct (round_near_mul_fits x y Hx Hy Hfit) as [_ ->].
      split; [rewrite Hmul; apply Z.mod_mul; lia|].
      split; [lia|].
      unfold half_up_intermediate in *.
      pose proof (Z.mod_pos_bound (x + y / 2) y ltac:(lia)).
      pose proof (Z.div_mod y 2 ltac:(lia)).
      pose proof (Z.mod_pos_bound y 2 ltac:(lia)).
      lia.
    - rewrite (wsat_overflow_value x y Hx Hy Hov).
      pose proof (Z.div_mod x y ltac:(lia)).
      pose proof (Z.mod_pos_bound x y ltac:(lia)).
      assert (0 <= x / y * y)
        by (apply Z.mul_nonneg_nonneg; [apply Z.div_pos|]; lia).
      split; [apply Z.mod_mul; lia|]. lia. }
  destruct Hshape as (Hm & Hr & Hlo & Hhi).
  repeat split; try assumption; try lia.
  set (r := round_near_mul_wsat x y) in *.
  pose proof (half_up_intermediate_of_multiple r y ltac:(lia) ltac:(lia) Hm) as E.
  destruct (round_near_mul_fits r y ltac:(lia) Hy ltac:(lia)) as [_ Hs].
  now rewrite Hs.
Qed.

Lemma round_near_mul_wsat_multiple_idempotent_witness :
  round_near_mul_wsat 255 10 mod 10 = 0 /\
  0 <= round_near_mul_wsat 255 10 <= 255 /\
  255 - 10 < round_near_mul_wsat 255 10 /\
  2 * (round_near_mul_wsat 255 10 - 255) <= 10 /\
  round_near_mul_wsat (round_near_mul_wsat 255 10) 10
  = round_near_mul_wsat 255 10.
Proof.
  apply (round_near_mul_wsat_multiple_idempotent 255 10).
  - split; [discriminate | reflexivity].
  - split; reflexivity.
Defined.

(** X3: when the intermediate [t] passes 255, the wrapping variant returns
    [t - 256], a value below [y/2], and the saturating variant returns
    [t - y]; the two results differ by exactly [256 - y]. *)
Theorem round_near_mul_overflow_results x y :
  0 <= x < 256 -> 0 < y < 256 -> half_up_intermediate x y > 255 ->
  round_near_mul_wovf x y = half_up_intermediate x y - 256 /\
  0 <= round_near_mul_wovf x y /\
  2 * round_near_mul_wovf x y < y /\
  round_near_mul_wsat x y = half_up_intermediate x y - y /\
  round_near_mul_wsat x y = round_near_mul_wovf x y + 256 - y.
Proof.
  intros Hx Hy Hov.
  destruct (wovf_overflow_value x y Hx Hy Hov) as [_ Hw].
  pose proof (wsat_overflow_value x y Hx Hy Hov) as Hs.
  pose proof (half_up_intermediate_bounds x y Hx Hy) as Hb.
  assert (Ht : half_up_intermediate x y - y = x / y * y).
  { pose proof (half_up_intermediate_multiple x y Hy) as Hmul.
    pose proof (Z.div_mod y 2 ltac:(lia)).
    pose proof (Z.mod_pos_bound y 2 ltac:(lia)).
    assert (Hk : (x + y / 2) / y = x / y + 1).
    { symmetry. apply (Z.div_unique _ _ _ (x + y / 2 - (x / y + 1) * y)).
      - left.
        pose proof (Z.div_mod x y ltac:(lia)).
        pose proof (Z.mod_pos_bound x y ltac:(lia)).
        pose proof (Z.div_mod (x + y / 2) y ltac:(lia)).
        pose proof (Z.mod_pos_bound (x + y / 2) y ltac:(lia)).
        split; [|nia].
        rewrite Hmul in Hov.
        assert (x / y < (x + y / 2) / y) by nia. nia.
      - ring. }
    rewrite Hmul, Hk. ring. }
  rewrite Hw, Hs, Ht.
  pose proof (Z.div_mod y 2 ltac:(lia)).
  pose proof (Z.mod_pos_bound y 2 ltac:(lia)).
  repeat split; lia.
Qed.

Lemma round_near_mul_overflow_results_witness :
  half_up_intermediate 255 10 > 255 /\
  round_near_mul_wovf 255 10 = half_up_intermediate 255 10 - 256 /\
  0 <= round_near_mul_wovf 255 10 /\
  2 * round_near_mul_wovf 255 10 < 10 /\
  round_near_mul_wsat 255 10 = half_up_intermediate 255 10 - 10 /\
  round_near_mul_wsat 255 10 = round_near_mul_wovf 255 10 + 256 - 10.
Proof.
  split; [reflexivity|].
  apply (round_near_mul_overflow_results 255 10).
  - split; [discriminate | reflexivity].
  - split; reflexivity.
  - reflexivity.
Defined.

(** X4: rounding the result of the wrapping variant again leaves it
    unchanged when the intermediate fitted 8 bits, and yields 0 when it
    had passed 255. *)
Theorem round_near_mul_wovf_twice x y :
  0 <= x < 256 -> 0 < y < 256 ->
  round_near_mul_wovf (round_near_mul_wovf x y) y
  = if half_up_intermediate x y >? 255 then 0 else round_near_mul_wovf x y.
Proof.
  intros Hx Hy.
  pose proof (half_up_intermediate_bounds x y Hx Hy) as Hb.
  pose proof (Z.div_mod y 2 ltac:(lia)) as Hh.
  pose proof (Z.mod_pos_bound y 2 ltac:(lia)) as Hh'.
  destruct (Z.gtb_spec (half_up_intermediate x y) 255) as [Hov|Hfit].
  - destruct (wovf_overflow_value x y Hx Hy ltac:(lia)) as [_ Hw].
    set (w := round_near_mul_wovf x y) in *.
    assert (Hw' : 0 <= w /\ w + y / 2 < y) by lia.
    assert (E : half_up_intermediate w y = 0).
    { unfold half_up_intermediate. rewrite Z.mod_small by lia. lia. }
    destruct (round_near_mul_fits w y ltac:(lia) Hy ltac:(lia)) as [-> _].
    exact E.
  - destruct (round_near_mul_fits x y Hx Hy ltac:(lia)) as [Hw _].
    rewrite Hw.
    set (t := half_up_intermediate x y) in *.
    assert (Hm : t mod y = 0).
    { subst t. rewrite (half_up_intermediate_multiple x y Hy).
      apply Z.mod_mul. lia. }
    pose proof (half_up_intermediate_of_multiple t y ltac:(lia) ltac:(lia) Hm) as E.
    destruct (round_near_mul_fits t y ltac:(lia) Hy ltac:(lia)) as [-> _].
    exact E.
Qed.

Lemma round_near_mul_wovf_twice_witness :
  round_near_mul_wovf (round_near_mul_wovf 255 10) 10
  = if half_up_intermediate 255 10 >? 255 then 0
    else round_near_mul_wovf 255 10.
Proof.
  apply (round_near_mul_wovf_twice 255 10).
  - split; [discriminate | reflexivity].
  - split; reflexivity.
Defined.

Lemma wovf_overflow_multiple_iff_witness :
  half_up_intermediate 250 16 > 255 /\
  (round_near_mul_wovf 250 16 mod 16 = 0 <-> 256 mod 16 = 0).
Proof.
  split; [reflexivity|].
  apply (wovf_overflow_multiple_iff 250 16).
  - split; [discriminate | reflexivity].
  - split; reflexivity.
  - reflexivity.
Defined.

(** ** The prescaler scan *)

Lemma prescalers_bounded : Forall (fun p => p <= 1024) prescalers.
Proof. unfold prescalers. repeat constructor; discriminate. Qed.

Lemma prescalers_nth_bounds i :
  0 <= i < 12 -> 0 < nth (Z.to_nat i) prescalers 0 <= 1024.
Proof.
  intros Hi. destruct (prescalers_lookup i Hi) as [_ Hpos].
  split; [exact Hpos|].
  pose proof prescalers_bounded as Hp. rewrite Forall_forall in Hp.
  apply Hp. apply nth_In. simpl. lia.
Qed.

(** The switch accepts exactly the recognized identifiers. *)
Lemma timer_params_some timer_id ps pe tmax :
  timer_params timer_id = Some (ps, pe, tmax) ->
  In timer_id recognized_timers /\
  ps = subrange_start timer_id /\ pe = subrange_end timer_id /\
  tmax = counter_max timer_id.
Proof.
  intros H.
  destruct (in_dec Z.eq_dec timer_id recognized_timers) as [Hin|Hout].
  - rewrite (timer_params_recognized _ Hin) in H.
    injection H as <- <- <-. now repeat split.
  - rewrite (timer_params_unrecognized _ Hout) in H. discriminate.
Qed.

(** A tick count is too large exactly when the quotient is zero (the
    subtraction wraps) or at least [tmax + 2]. *)
Lemma ticks_at_too_large temp i tmax :
  0 <= temp < 4294967296 -> 0 <= i < 12 -> 0 <= tmax <= 65535 ->
  ticks_at temp i > tmax <->
  temp < nth (Z.to_nat i) prescalers 0 \/
  nth (Z.to_nat i) prescalers 0 * (tmax + 2) <= temp.
Proof.
  intros Ht Hi Hmax.
  destruct (prescalers_nth_bounds i Hi) as [Hpos _].
  unfold ticks_at. set (p := nth (Z.to_nat i) prescalers 0) in *.
  destruct (Z_lt_ge_dec temp p) as [Hlt|Hge].
  - rewrite Z.div_small by lia.
    change (u32 (0 - 1)) with 4294967295. split; [now left | lia].
  - assert (Hq : 1 <= temp / p < 4294967296).
    { split; [apply Z.div_le_lower_bound; lia|].
      apply Z.div_lt_upper_bound; nia. }
    rewrite u32_small by lia.
    split.
    + intros H. right.
      assert (tmax + 2 <= temp / p) by lia.
      pose proof (Z.mul_div_le temp p Hpos). nia.
    + intros [H|H]; [lia|].
      assert (tmax + 2 <= temp / p)
        by (apply Z.div_le_lower_bound; lia).
      lia.
Qed.

(** X6: [calc_presc_CSbits] is defined on every input: no division by
    zero, no table access out of range, and the scan ends.  It returns
    either -1 with the stored value untouched, or, for a nonzero [freq]
    and a recognized timer, a value between 1 and the length of the
    timer's subrange with a stored tick count within the counter maximum;
    it never returns 0. *)
Theorem calc_presc_CSbits_defined_and_ranged F_CPU freq timer_id ticks :
  exists ret ticks',
    calc_presc_CSbits F_CPU freq timer_id ticks = Some (ret, ticks') /\
    ((ret = -1 /\ ticks' = ticks) \/
     (1 <= ret <= subrange_end timer_id - subrange_start timer_id /\
      0 <= ticks' <= counter_max timer_id /\
      freq <> 0 /\ In timer_id recognized_timers)).
Proof.
  destruct (calc_presc_CSbits_cases F_CPU freq timer_id ticks)
    as [[_ E]|[(_ & _ & E)|(Hfreq & ps & pe & tmax & Hparams & Hrun)]].
  - exists (-1), ticks. split; [exact E|now left].
  - exists (-1), ticks. split; [exact E|now left].
  - destruct (timer_params_some _ _ _ _ Hparams) as (Hin & -> & -> & ->).
    destruct Hrun as [(i & (Hi & Hfit & _) & E)|[_ E]].
    + eexists _, _. split; [exact E|]. right.
      pose proof (ticks_at_range (u32 (F_CPU / freq)) i).
      repeat split; (assumption || lia).
    + exists (-1), ticks. split; [exact E|now left].
Qed.

(** Reading one too-large tick count of a failed or skipped index. *)
Ltac too_large_at Hall temp tmax Ht Hmax k :=
  let H := fresh "Hk" in
  pose proof
    (fun Hin => proj1 (ticks_at_too_large temp k tmax Ht ltac:(lia) Hmax)
                  (Hall k Hin)) as H;
  simpl (nth _ prescalers 0) in H.

(** X7: for a nonzero [freq] and a recognized timer the function succeeds
    exactly when the clock ratio [F_CPU / freq] is at least 1 and below
    [1024 * (counter maximum + 2)]: 263168 for the 8-bit timers, 67109888
    for the 16-bit ones.  In particular a target above the clock fails. *)
Theorem calc_presc_CSbits_succeeds_iff F_CPU freq timer_id ticks :
  0 <= F_CPU < 2 ^ 32 -> 0 < freq -> In timer_id recognized_timers ->
  (exists ret ticks',
      calc_presc_CSbits F_CPU freq timer_id ticks = Some (ret, ticks') /\
      1 <= ret) <->
  1 <= F_CPU / freq < 1024 * (counter_max timer_id + 2).
Proof.
  intros HF Hfreq Hid.
  pose proof (clock_ratio_u32 _ _ HF Hfreq) as Hratio.
  assert (Ht : 0 <= F_CPU / freq < 4294967296)
    by (rewrite <- Hratio; apply u32_range).
  destruct (calc_presc_CSbits_cases F_CPU freq timer_id ticks)
    as [[E _]|[(_ & Hnone & _)|(_ & ps & pe & tmax & Hparams & Hrun)]].
  - lia.
  - rewrite (timer_params_recognized _ Hid) in Hnone. discriminate.
  - pose proof (timer_params_cases _ _ _ _ Hparams) as Hshape.
    destruct (timer_params_some _ _ _ _ Hparams) as (_ & Eps & Epe & Etmax).
    rewrite <- Etmax. clear Eps Epe Etmax.
    rewrite Hratio in Hrun. set (temp := F_CPU / freq) in *.
    assert (Hmax : 0 <= tmax <= 65535) by lia.
    destruct Hrun as [(i & (Hi & Hfit & _) & E)|[Hall E]].
    + split; [intros _|intros _; eexists _, _; split; [exact E|lia]].
      assert (Hi12 : 0 <= i < 12) by lia.
      destruct (prescalers_nth_bounds i Hi12) as [Hpos Hle].
      pose proof (ticks_at_too_large temp i tmax Ht Hi12 Hmax) as Hiff.
      assert (Hin : nth (Z.to_nat i) prescalers 0 <= temp
                    < nth (Z.to_nat i) prescalers 0 * (tmax + 2)).
      { destruct (Z_lt_ge_dec temp (nth (Z.to_nat i) prescalers 0));
          [lia|].
        destruct (Z_lt_ge_dec temp (nth (Z.to_nat i) prescalers 0 * (tmax + 2)));
          lia. }
      nia.
    + split.
      * intros (ret & ticks' & E' & Hret). rewrite E in E'.
        injection E' as <- _. lia.
      * intros Hin. exfalso. clearbody temp.
        destruct Hshape as [(-> & -> & Hmx)|(-> & -> & Hmx)].
        -- too_large_at Hall temp tmax Ht Hmax 0.
           too_large_at Hall temp tmax Ht Hmax 1.
           too_large_at Hall temp tmax Ht Hmax 2.
           too_large_at Hall temp tmax Ht Hmax 3.
           too_large_at Hall temp tmax Ht Hmax 4.
           lia.
        -- too_large_at Hall temp tmax Ht Hmax 5.
           too_large_at Hall temp tmax Ht Hmax 6.
           too_large_at Hall temp tmax Ht Hmax 7.
           too_large_at Hall temp tmax Ht Hmax 8.
           too_large_at Hall temp tmax Ht Hmax 9.
           too_large_at Hall temp tmax Ht Hmax 10.
           too_large_at Hall temp tmax Ht Hmax 11.
           lia.
Qed.

Lemma calc_presc_CSbits_succeeds_iff_witness :
  (exists ret ticks',
      calc_presc_CSbits 16000000 1000 AVR_TIMER0 77 = Some (ret, ticks') /\
      1 <= ret) <->
  1 <= 16000000 / 1000 < 1024 * (counter_max AVR_TIMER0 + 2).
Proof.
  apply (calc_presc_CSbits_succeeds_iff 16000000 1000 AVR_TIMER0 77).
  - split; [discriminate | reflexivity].
  - reflexivity.
  - left; reflexivity.
Defined.

(** X8: on success the returned value names the divisor: with [p] the
    table entry at index [subrange start + ret - 1], the stored tick count
    plus one is the quotient [(F_CPU / freq) / p], and the frequency the
    timer then produces, [F_CPU / (p * (ticks + 1))], is never below the
    requested one. *)
Theorem calc_presc_CSbits_frequency F_CPU freq timer_id ticks ret ticks' :
  0 <= F_CPU < 2 ^ 32 -> 0 < freq ->
  calc_presc_CSbits F_CPU freq timer_id ticks = Some (ret, ticks') ->
  1 <= ret ->
  exists p,
    nth_error prescalers (Z.to_nat (subrange_start timer_id + ret - 1))
    = Some p /\
    0 < p /\
    ticks' + 1 = (F_CPU / freq) / p /\
    freq * (p * (ticks' + 1)) <= F_CPU /\
    freq <= F_CPU / (p * (ticks' + 1)).
Proof.
  intros HF Hfreq Hcall Hret.
  pose proof (clock_ratio_u32 _ _ HF Hfreq) as Hratio.
  assert (Ht : 0 <= F_CPU / freq < 4294967296)
    by (rewrite <- Hratio; apply u32_range).
  destruct (calc_presc_CSbits_cases F_CPU freq timer_id ticks)
    as [[E _]|[(_ & _ & E)|(_ & ps & pe & tmax & Hparams & Hrun)]].
  - lia.
  - rewrite E in Hcall. injection Hcall as <- _. lia.
  - pose proof (timer_params_cases _ _ _ _ Hparams) as Hshape.
    destruct (timer_params_some _ _ _ _ Hparams) as (_ & -> & -> & ->).
    rewrite Hratio in Hrun. set (temp := F_CPU / freq) in *.
    destruct Hrun as [(i & (Hi & Hfit & _) & E)|[_ E]];
      rewrite E in Hcall; injection Hcall as <- <-; [|lia].
    assert (Hi12 : 0 <= i < 12) by lia.
    destruct (prescalers_lookup i Hi12) as [Hnth Hpos].
    destruct (ticks_at_fits temp i (counter_max timer_id) Ht Hi12
                ltac:(lia) Hfit) as [Hval Hnn].
    exists (nth (Z.to_nat i) prescalers 0).
    set (p := nth (Z.to_nat i) prescalers 0) in *.
    replace (subrange_start timer_id + (i - subrange_start timer_id + 1) - 1)
      with i by lia.
    rewrite Hval.
    replace (temp / p - 1 + 1) with (temp / p) by lia.
    pose proof (Z.mul_div_le temp p Hpos) as H1.
    pose proof (Z.mul_div_le F_CPU freq Hfreq) as H2. fold temp in H2.
    assert (H3 : freq * (p * (temp / p)) <= F_CPU) by nia.
    repeat split; try assumption.
    apply Z.div_le_lower_bound; nia.
Qed.

Lemma calc_presc_CSbits_frequency_witness :
  exists p,
    nth_error prescalers (Z.to_nat (subrange_start AVR_TIMER0 + 3 - 1))
    = Some p /\
    0 < p /\
    249 + 1 = (16000000 / 1000) / p /\
    1000 * (p * (249 + 1)) <= 16000000 /\
    1000 <= 16000000 / (p * (249 + 1)).
Proof.
  apply (calc_presc_CSbits_frequency 16000000 1000 AVR_TIMER0 77 3 249).
  - split; [discriminate | reflexivity].
  - reflexivity.
  - reflexivity.
  - discriminate.
Defined.

(** A successful call, read back: the selected index, its divisor's
    bounds on the clock ratio and the stored tick count. *)
Lemma calc_presc_CSbits_success F_CPU freq timer_id ticks ret ticks' :
  0 <= F_CPU < 2 ^ 32 -> 0 < freq ->
  calc_presc_CSbits F_CPU freq timer_id ticks = Some (ret, ticks') ->
  1 <= ret ->
  exists i,
    selects (F_CPU / freq) (subrange_start timer_id) (subrange_end timer_id)
      (counter_max timer_id) i /\
    ret = i - subrange_start timer_id + 1 /\
    ticks' = F_CPU / freq / nth (Z.to_nat i) prescalers 0 - 1 /\
    0 <= ticks' <= counter_max timer_id /\
    In timer_id recognized_timers.
Proof.
  intros HF Hfreq Hcall Hret.
  pose proof (clock_ratio_u32 _ _ HF Hfreq) as Hratio.
  assert (Ht : 0 <= F_CPU / freq < 4294967296)
    by (rewrite <- Hratio; apply u32_range).
  destruct (calc_presc_CSbits_cases F_CPU freq timer_id ticks)
    as [[E _]|[(_ & _ & E)|(_ & ps & pe & tmax & Hparams & Hrun)]].
  - lia.
  - rewrite E in Hcall. injection Hcall as <- _. lia.
  - pose proof (timer_params_cases _ _ _ _ Hparams) as Hshape.
    destruct (timer_params_some _ _ _ _ Hparams) as (Hin & -> & -> & ->).
    rewrite Hratio in Hrun.
    destruct Hrun as [(i & Hsel & E)|[_ E]];
      rewrite E in Hcall; injection Hcall as <- <-; [|lia].
    pose proof Hsel as (Hi & Hfit & _).
    destruct (ticks_at_fits (F_CPU / freq) i (counter_max timer_id) Ht
                ltac:(lia) ltac:(lia) Hfit) as [Hval Hnn].
    exists i. rewrite <- Hval. repeat split; try assumption; try lia.
    all: apply Hsel.
Qed.

(** X9: timer 2 is at least as fine as timer 0.  Whenever the call for
    timer 0 succeeds, the call for timer 2 with the same [freq] succeeds
    too, and its tick count is at least the one of timer 0: its subrange
    holds every divisor of timer 0, in ascending order. *)
Theorem calc_presc_CSbits_timer2_refines_timer0
  F_CPU freq ticks0 ticks2 ret0 count0 :
  0 <= F_CPU < 2 ^ 32 -> 0 < freq ->
  calc_presc_CSbits F_CPU freq AVR_TIMER0 ticks0 = Some (ret0, count0) ->
  1 <= ret0 ->
  exists ret2 count2,
    calc_presc_CSbits F_CPU freq AVR_TIMER2 ticks2 = Some (ret2, count2) /\
    1 <= ret2 /\ count0 <= count2.
Proof.
  intros HF Hfreq Hcall0 Hret0.
  destruct (calc_presc_CSbits_success _ _ _ _ _ _ HF Hfreq Hcall0 Hret0)
    as (i0 & (Hi0 & Hfit0 & _) & _ & Hc0 & _ & _).
  change (subrange_start AVR_TIMER0) with 0 in Hi0.
  change (subrange_end AVR_TIMER0) with 5 in Hi0.
  change (counter_max AVR_TIMER0) with 255 in Hfit0.
  pose proof (clock_ratio_u32 _ _ HF Hfreq) as Hratio.
  assert (Ht : 0 <= F_CPU / freq < 4294967296)
    by (rewrite <- Hratio; apply u32_range).
  assert (Hmax : 0 <= 255 <= 65535) by lia.
  pose proof (ticks_at_too_large (F_CPU / freq) i0 255 Ht ltac:(lia) Hmax)
    as Hiff0.
  destruct (calc_presc_CSbits_cases F_CPU freq AVR_TIMER2 ticks2)
    as [[E _]|[(_ & Hnone & _)|(_ & ps & pe & tmax & Hparams & Hrun)]].
  - lia.
  - discriminate Hnone.
  - injection Hparams as <- <- <-.
    rewrite Hratio in Hrun.
    set (temp := F_CPU / freq) in *. clearbody temp.
    assert (E0 : i0 = 0 \/ i0 = 1 \/ i0 = 2 \/ i0 = 3 \/ i0 = 4) by lia.
    destruct Hrun as [(i2 & (Hi2 & Hfit2 & Hbefore) & E2)|[Hall _]].
    + exists (i2 - 5 + 1), (ticks_at temp i2).
      split; [exact E2|]. split; [lia|].
      destruct (ticks_at_fits temp i2 255 Ht ltac:(lia) ltac:(lia) Hfit2)
        as [-> _].
      too_large_at Hbefore temp 255 Ht Hmax 5.
      too_large_at Hbefore temp 255 Ht Hmax 6.
      too_large_at Hbefore temp 255 Ht Hmax 7.
      too_large_at Hbefore temp 255 Ht Hmax 8.
      too_large_at Hbefore temp 255 Ht Hmax 9.
      too_large_at Hbefore temp 255 Ht Hmax 10.
      too_large_at Hbefore temp 255 Ht Hmax 11.
      assert (E2' : i2 = 5 \/ i2 = 6 \/ i2 = 7 \/ i2 = 8 \/ i2 = 9
                    \/ i2 = 10 \/ i2 = 11) by lia.
      clear E2 Hcall0 Hfit2 Hbefore.
      destruct E0 as [->|[->|[->|[->| ->]]]];
        destruct E2' as [->|[->|[->|[->|[->|[->| ->]]]]]];
        simpl (nth _ prescalers 0) in *;
        subst count0; Z.to_euclidean_division_equations; lia.
    + exfalso.
      too_large_at Hall temp 255 Ht Hmax 5.
      too_large_at Hall temp 255 Ht Hmax 6.
      too_large_at Hall temp 255 Ht Hmax 8.
      too_large_at Hall temp 255 Ht Hmax 10.
      too_large_at Hall temp 255 Ht Hmax 11.
      destruct E0 as [->|[->|[->|[->| ->]]]];
        simpl (nth _ prescalers 0) in *; lia.
Qed.

Lemma calc_presc_CSbits_timer2_refines_timer0_witness :
  exists ret2 count2,
    calc_presc_CSbits 16000000 500 AVR_TIMER2 0 = Some (ret2, count2) /\
    1 <= ret2 /\ 124 <= count2.
Proof.
  apply (calc_presc_CSbits_timer2_refines_timer0 16000000 500 0 0 4 124).
  - split; [discriminate | reflexivity].
  - reflexivity.
  - reflexivity.
  - discriminate.
Defined.

(** X10: the 16-bit timers accept whatever timer 0 accepts.  Whenever the
    call for timer 0 succeeds, the call for a 16-bit timer with the same
    [freq] succeeds too, with a divisor that comes no later in the table
    and a tick count at least as large. *)
Theorem calc_presc_CSbits_16bit_refines_timer0
  F_CPU freq timer_id ticks0 ticks1 ret0 count0 :
  0 <= F_CPU < 2 ^ 32 -> 0 < freq ->
  In timer_id [AVR_TIMER1; AVR_TIMER3; AVR_TIMER4; AVR_TIMER5] ->
  calc_presc_CSbits F_CPU freq AVR_TIMER0 ticks0 = Some (ret0, count0) ->
  1 <= ret0 ->
  exists ret1 count1,
    calc_presc_CSbits F_CPU freq timer_id ticks1 = Some (ret1, count1) /\
    1 <= ret1 <= ret0 /\ count0 <= count1.
Proof.
  intros HF Hfreq Hid Hcall0 Hret0.
  destruct (calc_presc_CSbits_success _ _ _ _ _ _ HF Hfreq Hcall0 Hret0)
    as (i0 & (Hi0 & Hfit0 & _) & Hr0 & Hc0 & _ & _).
  change (subrange_start AVR_TIMER0) with 0 in Hi0, Hr0.
  change (subrange_end AVR_TIMER0) with 5 in Hi0.
  change (counter_max AVR_TIMER0) with 255 in Hfit0.
  pose proof (clock_ratio_u32 _ _ HF Hfreq) as Hratio.
  assert (Ht : 0 <= F_CPU / freq < 4294967296)
    by (rewrite <- Hratio; apply u32_range).
  assert (Hmax : 0 <= 65535 <= 65535) by lia.
  assert (Hparams1 : timer_params timer_id = Some (0, 5, 65535)).
  { cbn [In] in Hid. destruct Hid as [<-|[<-|[<-|[<-|[]]]]]; reflexivity. }
  destruct (ticks_at_fits (F_CPU / freq) i0 255 Ht ltac:(lia) ltac:(lia) Hfit0)
    as [Hval0 Hnn0].
  destruct (calc_presc_CSbits_cases F_CPU freq timer_id ticks1)
    as [[E _]|[(_ & Hnone & _)|(_ & ps & pe & tmax & Hparams & Hrun)]].
  - lia.
  - rewrite Hparams1 in Hnone. discriminate.
  - rewrite Hparams1 in Hparams. injection Hparams as <- <- <-.
    rewrite Hratio in Hrun.
    set (temp := F_CPU / freq) in *. clearbody temp.
    assert (Hfit1 : ~ ticks_at temp i0 > 65535) by lia.
    destruct Hrun as [(i1 & (Hi1 & Hfit & Hbefore) & E1)|[Hall _]].
    + exists (i1 - 0 + 1), (ticks_at temp i1).
      split; [exact E1|].
      assert (Hle : i1 <= i0).
      { destruct (Z_le_gt_dec i1 i0); [assumption|].
        exfalso. apply Hfit1. apply Hbefore. lia. }
      split; [lia|].
      destruct (ticks_at_fits temp i1 65535 Ht ltac:(lia) ltac:(lia) Hfit)
        as [-> _].
      assert (E0 : i0 = 0 \/ i0 = 1 \/ i0 = 2 \/ i0 = 3 \/ i0 = 4) by lia.
      assert (E1' : i1 = 0 \/ i1 = 1 \/ i1 = 2 \/ i1 = 3 \/ i1 = 4) by lia.
      clear E1 Hcall0 Hfit Hbefore Hfit0 Hfit1 Hval0.
      destruct E0 as [->|[->|[->|[->| ->]]]];
        destruct E1' as [->|[->|[->|[->| ->]]]];
        try lia;
        simpl (nth _ prescalers 0) in *;
        subst count0; Z.to_euclidean_division_equations; lia.
    + exfalso. apply Hfit1. apply Hall. lia.
Qed.

Lemma calc_presc_CSbits_16bit_refines_timer0_witness :
  exists ret1 count1,
    calc_presc_CSbits 16000000 500 AVR_TIMER1 0 = Some (ret1, count1) /\
    1 <= ret1 <= 4 /\ 124 <= count1.
Proof.
  apply (calc_presc_CSbits_16bit_refines_timer0
           16000000 500 AVR_TIMER1 0 0 4 124).
  - split; [discriminate | reflexivity].
  - reflexivity.
  - left; reflexivity.
  - reflexivity.
  - discriminate.
Defined.

(** ** The UART divisor *)

(** X11: whatever the clock, the baud rate, the mode and the width of
    [int], a value returned by [calc_uart_UBRRn] lies between -1 and
    4096. *)
Theorem calc_uart_UBRRn_return_range F_CPU m baudrate is_U2X_set d :
  calc_uart_UBRRn F_CPU m baudrate is_U2X_set = Some d ->
  -1 <= d <= 4096.
Proof.
  intros Hcall.
  destruct (calc_uart_UBRRn_result _ _ _ _ _ Hcall) as [->|[H _]]; lia.
Qed.

Lemma calc_uart_UBRRn_return_range_witness :
  calc_uart_UBRRn 16000000 Int16 9600 false = Some 103 /\ -1 <= 103 <= 4096.
Proof.
  split; [reflexivity|].
  apply (calc_uart_UBRRn_return_range 16000000 Int16 9600 false 103).
  reflexivity.
Defined.

Lemma calc_uart_UBRRn_hosted_margin_witness :
  calc_uart_UBRRn 16000000 Int32 9600 false = Some 103 /\
  0 <= 103 <= 4096 /\
  Z.abs (16000000 / (uart_prescaler false * (103 + 1)) - 9600)
  <= 9600 * 25 / 1000.
Proof.
  split; [reflexivity|].
  apply (calc_uart_UBRRn_hosted_margin 16000000 9600 false 103).
  - split; [discriminate | reflexivity].
  - split; reflexivity.
  - reflexivity.
  - discriminate.
Defined.

(** With a 16-bit [int] the deviation is the true absolute difference as
    long as it is below 2^15. *)
Lemma baud_diff_avr check_baudrate baudrate :
  - 32768 < check_baudrate - baudrate < 32768 ->
  baud_diff Int16 check_baudrate baudrate
  = Some (Z.abs (check_baudrate - baudrate)).
Proof.
  intros H.
  unfold baud_diff, c_abs, s32, u32, wrap_unsigned. cbn [int_bits].
  rewrite wrap_signed_mod by lia.
  assert (E32 : wrap_signed 32 (check_baudrate - baudrate)
                = check_baudrate - baudrate).
  { apply wrap_signed_small; [lia|].
    change (2 ^ (32 - 1)) with 2147483648. lia. }
  assert (E16 : wrap_signed 16 (check_baudrate - baudrate)
                = check_baudrate - baudrate).
  { apply wrap_signed_small; [lia|].
    change (2 ^ (16 - 1)) with 32768. lia. }
  rewrite E32, E16. change (2 ^ (16 - 1)) with 32768.
  match goal with
  | |- context [?a =? ?b] => destruct (Z.eqb_spec a b); [lia|]
  end.
  rewrite Z.mod_small; [reflexivity|].
  change (2 ^ 32) with 4294967296. lia.
Qed.

(** The divisor expression does not wrap while it stays below 2^16. *)
Lemma baud_of_exact F_CPU m prescaler temp :
  0 <= F_CPU < 2 ^ 32 -> 0 < prescaler -> 0 <= temp ->
  prescaler * (temp + 1) < 65536 ->
  baud_of F_CPU m prescaler temp = Some (F_CPU / (prescaler * (temp + 1))).
Proof.
  change (2 ^ 32) with 4294967296. intros HF Hp Ht Hsmall.
  assert (Hprod : 0 < prescaler * (temp + 1)) by nia.
  assert (Htemp : temp + 1 < 65536) by nia.
  unfold baud_of, promoted, udiv.
  destruct m.
  - rewrite (u16_small (temp + 1)) by lia.
    rewrite u16_small by lia.
    destruct (Z.eqb_spec (prescaler * (temp + 1)) 0); [lia|].
    rewrite u32_small; [reflexivity|].
    split; [apply Z.div_pos; lia|]. apply Z.div_lt_upper_bound; nia.
  - destruct (Z.eqb_spec (prescaler * (temp + 1)) 0); [lia|].
    rewrite u32_small; [reflexivity|].
    split; [apply Z.div_pos; lia|]. apply Z.div_lt_upper_bound; nia.
Qed.

(** X13: with the 16-bit [int] of the AVR target, a returned divisor whose
    divisor expression does not wrap and whose baud rate is less than
    32768 away from the target is within 2.5% of the target. *)
Theorem calc_uart_UBRRn_avr_margin F_CPU baudrate is_U2X_set d :
  0 <= F_CPU < 2 ^ 32 -> 0 <= baudrate ->
  calc_uart_UBRRn F_CPU Int16 baudrate is_U2X_set = Some d ->
  d <> -1 ->
  uart_prescaler is_U2X_set * (d + 1) < 65536 ->
  Z.abs (F_CPU / (uart_prescaler is_U2X_set * (d + 1)) - baudrate) < 32768 ->
  Z.abs (F_CPU / (uart_prescaler is_U2X_set * (d + 1)) - baudrate)
  <= baudrate * 25 / 1000.
Proof.
  intros HF Hb Hcall Hd Hsmall Hnear.
  destruct (calc_uart_UBRRn_result _ _ _ _ _ Hcall)
    as [E|(Hrange & check & Hcheck & Hdev)]; [contradiction|].
  assert (Hp : 8 <= uart_prescaler is_U2X_set <= 16)
    by (destruct is_U2X_set; cbn; lia).
  rewrite (baud_of_exact _ _ _ _ HF) in Hcheck by lia.
  injection Hcheck as Hcheck. rewrite Hcheck in Hnear |- *.
  destruct Hdev as [->|(diff & Hdiff & Hle)].
  - rewrite Z.sub_diag. cbn [Z.abs]. apply Z.div_pos; lia.
  - rewrite baud_diff_avr in Hdiff by lia.
    injection Hdiff as <-.
    pose proof (UART_ERR_CALC_le baudrate Hb). lia.
Qed.

Lemma calc_uart_UBRRn_avr_margin_witness :
  calc_uart_UBRRn 16000000 Int16 9600 false = Some 103 /\
  Z.abs (16000000 / (uart_prescaler false * (103 + 1)) - 9600)
  <= 9600 * 25 / 1000.
Proof.
  split; [reflexivity|].
  apply (calc_uart_UBRRn_avr_margin 16000000 9600 false 103).
  - split; [discriminate | reflexivity].
  - discriminate.
  - reflexivity.
  - discriminate.
  - reflexivity.
  - reflexivity.
Defined.

(** The first steps of [calc_uart_UBRRn] when [baudrate * prescaler] does
    not wrap: the quotient is [F_CPU / (baudrate * prescaler)]. *)
Ltac uart_open Hb Hnowrap :=
  unfold calc_uart_UBRRn;
  match goal with
  | |- context [if ?u then 8 else 16] => fold (uart_prescaler u)
  end;
  match goal with
  | |- context [?b =? 0] => destruct (Z.eqb_spec b 0); [lia|]
  end;
  rewrite (u32_small (_ * uart_prescaler _)) by lia;
  unfold udiv at 1;
  match goal with
  | |- context [?b =? 0] => destruct (Z.eqb_spec b 0); [nia|]
  end.

Lemma uart_prescaler_range is_U2X_set : 8 <= uart_prescaler is_U2X_set <= 16.
Proof. destruct is_U2X_set; cbn; lia. Qed.

Lemma wrapped_candidate q :
  0 <= q <= 65536 ->
  u16 (u32 (q - 1)) = if q =? 0 then 65535 else q - 1.
Proof.
  intros Hq. destruct (Z.eqb_spec q 0) as [->|Hne]; [reflexivity|].
  rewrite u32_small by lia. apply u16_small. lia.
Qed.

(** X14: when [baudrate * prescaler] does not wrap, the call returns -1 if
    the quotient [F_CPU / (baudrate * prescaler)] is 0 (the baud rate is
    too high for the clock) or lies between 4097 and 65536 (the divisor
    needs more than 12 bits). *)
Theorem calc_uart_UBRRn_rejects F_CPU m baudrate is_U2X_set :
  0 <= F_CPU < 2 ^ 32 -> 0 < baudrate ->
  baudrate * uart_prescaler is_U2X_set < 2 ^ 32 ->
  F_CPU / (baudrate * uart_prescaler is_U2X_set) = 0 \/
  4097 <= F_CPU / (baudrate * uart_prescaler is_U2X_set) <= 65536 ->
  calc_uart_UBRRn F_CPU m baudrate is_U2X_set = Some (-1).
Proof.
  change (2 ^ 32) with 4294967296. intros HF Hb Hnowrap Hq.
  pose proof (uart_prescaler_range is_U2X_set) as Hp.
  uart_open Hb Hnowrap.
  set (q := F_CPU / (baudrate * uart_prescaler is_U2X_set)) in *.
  rewrite (wrapped_candidate q) by lia.
  destruct (Z.eqb_spec q 0); [reflexivity|].
  destruct (Z.gtb_spec (q - 1) 4095); [reflexivity|lia].
Qed.

Lemma calc_uart_UBRRn_rejects_witness :
  16000000 / (2000000 * uart_prescaler false) = 0 /\
  calc_uart_UBRRn 16000000 Int16 2000000 false = Some (-1).
Proof.
  split; [reflexivity|].
  apply (calc_uart_UBRRn_rejects 16000000 Int16 2000000 false).
  - split; [discriminate | reflexivity].
  - reflexivity.
  - reflexivity.
  - left; reflexivity.
Defined.

(** X15: when the clock is exactly [baudrate * prescaler * (d + 1)] for a
    12-bit [d] whose divisor expression does not wrap, the call returns
    that exact divisor [d]. *)
Theorem calc_uart_UBRRn_exact F_CPU m baudrate is_U2X_set d :
  0 <= F_CPU < 2 ^ 32 -> 0 < baudrate -> 0 <= d <= 4095 ->
  uart_prescaler is_U2X_set * (d + 1) < 65536 ->
  F_CPU = baudrate * uart_prescaler is_U2X_set * (d + 1) ->
  calc_uart_UBRRn F_CPU m baudrate is_U2X_set = Some d.
Proof.
  intros HF Hb Hd Hsmall HF_eq.
  pose proof (uart_prescaler_range is_U2X_set) as Hp.
  assert (Hnowrap : baudrate * uart_prescaler is_U2X_set < 4294967296).
  { change (2 ^ 32) with 4294967296 in HF. nia. }
  assert (Hq : F_CPU / (baudrate * uart_prescaler is_U2X_set) = d + 1).
  { rewrite HF_eq. rewrite Z.mul_comm. apply Z.div_mul. nia. }
  assert (Hc : F_CPU / (uart_prescaler is_U2X_set * (d + 1)) = baudrate).
  { rewrite HF_eq.
    replace (baudrate * uart_prescaler is_U2X_set * (d + 1))
      with (baudrate * (uart_prescaler is_U2X_set * (d + 1))) by ring.
    apply Z.div_mul. nia. }
  uart_open Hb Hnowrap.
  rewrite Hq. replace (d + 1 - 1) with d by lia.
  rewrite u32_small by lia. rewrite u16_small by lia.
  destruct (Z.gtb_spec d 4095); [lia|].
  rewrite (baud_of_exact _ _ _ _ HF) by lia.
  rewrite Hc, Z.eqb_refl. rewrite s16_small by lia. reflexivity.
Qed.

Lemma calc_uart_UBRRn_exact_witness :
  16000000 = 250000 * uart_prescaler false * (3 + 1) /\
  calc_uart_UBRRn 16000000 Int16 250000 false = Some 3.
Proof.
  split; [reflexivity|].
  apply (calc_uart_UBRRn_exact 16000000 Int16 250000 false 3).
  - split; [discriminate | reflexivity].
  - reflexivity.
  - split; discriminate.
  - reflexivity.
  - reflexivity.
Defined.

(** X16: when [baudrate * prescaler] does not wrap and the quotient
    [q = F_CPU / (baudrate * prescaler)] is at most 65536, a returned
    value is -1, [q - 1] or [q]: the initial candidate never undershoots
    the target, so the adjacent candidate is always the next larger
    divisor and the decrement is never taken. *)
Theorem calc_uart_UBRRn_floor_or_next F_CPU m baudrate is_U2X_set d :
  0 <= F_CPU < 2 ^ 32 -> 0 < baudrate ->
  baudrate * uart_prescaler is_U2X_set < 2 ^ 32 ->
  F_CPU / (baudrate * uart_prescaler is_U2X_set) <= 65536 ->
  calc_uart_UBRRn F_CPU m baudrate is_U2X_set = Some d ->
  d = -1 \/
  d = F_CPU / (baudrate * uart_prescaler is_U2X_set) - 1 \/
  d = F_CPU / (baudrate * uart_prescaler is_U2X_set).
Proof.
  intros HF Hb Hnowrap Hq65.
  pose proof HF as HF'.
  change (2 ^ 32) with 4294967296 in HF', Hnowrap.
  pose proof (uart_prescaler_range is_U2X_set) as Hp.
  assert (Hq0 : 0 <= F_CPU / (baudrate * uart_prescaler is_U2X_set))
    by (apply Z.div_pos; nia).
  pose proof (Z.mul_div_le F_CPU (baudrate * uart_prescaler is_U2X_set)
                ltac:(nia)) as Hfloor.
  uart_open Hb Hnowrap.
  set (q := F_CPU / (baudrate * uart_prescaler is_U2X_set)) in *.
  rewrite (wrapped_candidate q) by lia.
  destruct (Z.eqb_spec q 0); [intros [= <-]; now left|].
  destruct (Z.gtb_spec (q - 1) 4095); [intros [= <-]; now left|].
  destruct (baud_of F_CPU m (uart_prescaler is_U2X_set) (q - 1))
    as [check0|] eqn:Hc0; [|discriminate].
  assert (Hover : baudrate <= check0).
  { destruct (Z_lt_ge_dec (uart_prescaler is_U2X_set * (q - 1 + 1)) 65536)
      as [Hs|Hs].
    - rewrite (baud_of_exact _ _ _ _ HF) in Hc0 by lia.
      injection Hc0 as <-. replace (q - 1 + 1) with q by lia.
      apply Z.div_le_lower_bound; nia.
    - assert (Hpq : uart_prescaler is_U2X_set * (q - 1 + 1) = 65536) by nia.
      unfold baud_of, promoted in Hc0. destruct m.
      + rewrite (u16_small (q - 1 + 1)) in Hc0 by lia.
        rewrite Hpq in Hc0. discriminate Hc0.
      + rewrite Hpq in Hc0. cbn [udiv Z.eqb] in Hc0.
        injection Hc0 as <-.
        rewrite u32_small
          by (split; [apply Z.div_pos; lia|apply Z.div_lt_upper_bound; lia]).
        apply Z.div_le_lower_bound; nia. }
  destruct (Z.eqb_spec check0 baudrate).
  { intros [= <-]. right; left. apply s16_small. lia. }
  destruct (baud_diff m check0 baudrate) as [diff0|]; [|discriminate].
  destruct (Z.gtb_spec check0 baudrate); [|lia].
  replace (q - 1 + 1) with q by lia.
  rewrite (u16_small q) by lia.
  destruct (baud_of F_CPU m (uart_prescaler is_U2X_set) q)
    as [check1|]; [|discriminate].
  destruct (baud_diff m check1 baudrate) as [diff1|]; [|discriminate].
  destruct (diff0 <? diff1).
  - destruct (diff0 >? UART_ERR_CALC baudrate);
      intros [= <-]; [now left|right; left; apply s16_small; lia].
  - destruct (diff1 >? UART_ERR_CALC baudrate);
      intros [= <-]; [now left|right; right; apply s16_small; lia].
Qed.

Lemma calc_uart_UBRRn_floor_or_next_witness :
  calc_uart_UBRRn 16000000 Int16 9950 false = Some 100 /\
  (100 = -1 \/
   100 = 16000000 / (9950 * uart_prescaler false) - 1 \/
   100 = 16000000 / (9950 * uart_prescaler false)).
Proof.
  split; [reflexivity|].
  apply (calc_uart_UBRRn_floor_or_next 16000000 Int16 9950 false 100).
  - split; [discriminate | reflexivity].
  - reflexivity.
  - reflexivity.
  - discriminate.
  - reflexivity.
Defined.

(** X17: with a 32-bit [int] the call has defined behaviour whenever
    [baudrate] is nonzero and [baudrate * prescaler] does not wrap: no
    division by zero and no [abs] of the most negative [int]. *)
Theorem calc_uart_UBRRn_hosted_defined F_CPU baudrate is_U2X_set :
  0 <= F_CPU < 2 ^ 32 -> 0 < baudrate ->
  baudrate * uart_prescaler is_U2X_set < 2 ^ 32 ->
  exists d, calc_uart_UBRRn F_CPU Int32 baudrate is_U2X_set = Some d.
Proof.
  intros HF Hb Hnowrap.
  pose proof HF as HF'.
  change (2 ^ 32) with 4294967296 in HF', Hnowrap.
  pose proof (uart_prescaler_range is_U2X_set) as Hp.
  assert (Hbaud : baudrate < 536870912) by nia.
  assert (Hcheck : forall temp, 0 <= temp ->
            0 <= F_CPU / (uart_prescaler is_U2X_set * (temp + 1)) < 536870912).
  { intros temp Htemp.
    split; [apply Z.div_pos; nia|]. apply Z.div_lt_upper_bound; nia. }
  assert (Hdiff : forall temp, 0 <= temp ->
            baud_diff Int32
              (F_CPU / (uart_prescaler is_U2X_set * (temp + 1))) baudrate
            = Some (Z.abs (F_CPU / (uart_prescaler is_U2X_set * (temp + 1))
                           - baudrate))).
  { intros temp Htemp. apply baud_diff_hosted.
    change (2 ^ 31) with 2147483648.
    pose proof (Hcheck temp Htemp). lia. }
  uart_open Hb Hnowrap.
  set (temp := u16 (u32 (F_CPU / (baudrate * uart_prescaler is_U2X_set) - 1))).
  assert (Ht : 0 <= temp < 65536)
    by (apply (Z.mod_pos_bound _ (2 ^ 16)); reflexivity).
  destruct (temp >? 4095); [now eexists|].
  rewrite (baud_of_hosted _ _ _ HF) by lia.
  destruct (_ =? baudrate); [now eexists|].
  rewrite (Hdiff temp) by lia.
  set (temp1 := if _ >? baudrate then u16 (temp + 1) else u16 (temp - 1)).
  assert (Ht1 : 0 <= temp1 < 65536).
  { subst temp1. destruct (_ >? baudrate);
      apply (Z.mod_pos_bound _ (2 ^ 16)); reflexivity. }
  rewrite (baud_of_hosted _ _ _ HF) by lia.
  rewrite (Hdiff temp1) by lia.
  destruct (_ <? _); destruct (_ >? UART_ERR_CALC baudrate); now eexists.
Qed.

Lemma calc_uart_UBRRn_hosted_defined_witness :
  exists d, calc_uart_UBRRn 16000000 Int32 9600 true = Some d.
Proof.
  apply (calc_uart_UBRRn_hosted_defined 16000000 9600 true).
  - split; [discriminate | reflexivity].
  - reflexivity.
  - reflexivity.
Defined.

(** X18: with the 16-bit [int] of the AVR target and U2X clear, a baud
    rate whose quotient [F_CPU / (baudrate * 16)] is exactly 4096 makes
    the call undefined: the initial candidate 4095 passes the 12-bit test
    and [16 * (4095 + 1)] wraps to 0 before the division. *)
Theorem calc_uart_UBRRn_avr_undefined F_CPU baudrate :
  0 <= F_CPU < 2 ^ 32 -> 0 < baudrate -> baudrate * 16 < 2 ^ 32 ->
  F_CPU / (baudrate * 16) = 4096 ->
  calc_uart_UBRRn F_CPU Int16 baudrate false = None.
Proof.
  intros HF Hb Hnowrap Hq.
  change (2 ^ 32) with 4294967296 in HF, Hnowrap.
  unfold calc_uart_UBRRn. cbv beta iota zeta.
  destruct (Z.eqb_spec baudrate 0); [lia|].
  rewrite (u32_small (baudrate * 16)) by lia.
  unfold udiv at 1.
  destruct (Z.eqb_spec (baudrate * 16) 0); [lia|].
  rewrite Hq. reflexivity.
Qed.

Lemma calc_uart_UBRRn_avr_undefined_witness :
  14745600 / (225 * 16) = 4096 /\
  calc_uart_UBRRn 14745600 Int16 225 false = None.
Proof.
  split; [reflexivity|].
  apply (calc_uart_UBRRn_avr_undefined 14745600 225).
  - split; [discriminate | reflexivity].
  - reflexivity.
  - reflexivity.
  - reflexivity.
Defined.
